(** * DataUploadComponent: the upload queue of neurosim.angular

    A shallow embedding of [src/app/data-upload/data-upload.component.ts].

    The component keeps an array of record objects ([uploadedFiles]) and
    hands each record, by reference, to the callbacks of the HTTP request
    that uploads it.  Records are therefore kept in an object store
    ([heap]) and the queue holds references into it: removing a queue
    entry detaches the record, it does not destroy it.

    Conventions.
    - JavaScript numbers that hold byte counts, indices and times are
      integers here ([Z]).  The one expression of the source that leaves
      the integers, the progress percentage, is computed as the source
      computes it, in double precision: a double is the rational it
      stands for ([Q]) and every operation rounds its exact result to
      the nearest double ([toDouble]).  The exponent range is not
      bounded: overflow, which starts above 1.7e308, is not modelled.
    - Strings are [string]s of 8-bit characters; [toLowerCase] folds the
      letters A-Z.  No character outside A-Z lower-cases to one of the
      characters of the accepted extensions, so the suffix test of
      [isValidFile] is not affected by this restriction.
    - Time is a logical clock in milliseconds; a timer runs when the
      clock reaches the instant it was set for.
    - A reference that the store does not hold stands for [undefined]:
      reading a field through it throws.  No state the component reaches
      has one.
    - [formatFileSize], a display helper, is left out. *)

From Stdlib Require Import ZArith QArith Qround String Ascii List Lia Lqa Bool.
From stdpp Require Import base tactics option list.

Local Open Scope string_scope.
Local Open Scope list_scope.
Local Open Scope Z_scope.

(** ** Strings *)

Definition toLowerChar (c : ascii) : ascii :=
  let n := nat_of_ascii c in
  if ((65 <=? n)%nat && (n <=? 90)%nat)%bool
  then ascii_of_nat (n + 32)
  else c.

Fixpoint toLowerCase (s : string) : string :=
  match s with
  | EmptyString => EmptyString
  | String c s' => String (toLowerChar c) (toLowerCase s')
  end.

(** [String.prototype.endsWith]: compare the last [length ext] characters. *)
Definition endsWith (s ext : string) : bool :=
  let len := String.length s in
  let searchLength := String.length ext in
  if (searchLength <=? len)%nat
  then String.eqb (substring (len - searchLength) searchLength s) ext
  else false.

(** ** Data model *)

Record File := { name : string; size : Z }.

Inductive Status := pending | uploading | success | failed.
(** [failed] is the status the source spells ['error'] (the record also
    has a field named [error]). *)

Record UploadedFile := {
  file : File;
  progress : Z;
  status : Status;
  error : option string
}.

Inductive AlertKind := alert_success | alert_error | alert_info.

Definition kindName (type : AlertKind) : string :=
  match type with
  | alert_success => "success"
  | alert_error => "error"
  | alert_info => "info"
  end.

(** Events of an [HttpClient] request observed with [observe: 'events']. *)
Inductive HttpEvent :=
  | Sent
  | UploadProgress (loaded : Z) (total : option Z)
  | ResponseHeader
  | DownloadProgress (loaded : Z) (total : option Z)
  | Response
  | User.

Inductive FormValue := FormFile (f : File) | FormString (s : string).

(** A reference to a record object in the store. *)
Definition ref := nat.

(** One [http.post] call: the record its callbacks close over, where it
    was sent, what was sent, and whether its observable can still emit. *)
Record Request := {
  target : ref;
  url : string;
  formData : list (string * FormValue);
  live : bool
}.

Record State := {
  heap : list UploadedFile;
  uploadedFiles : list ref;
  isDragOver : bool;
  isUploading : bool;
  alertMessage : string;
  alertType : string;
  backendUrl : string;
  now : Z;
  timers : list Z;
  requests : list Request
}.

Definition initial (backend : string) : State :=
  {| heap := []; uploadedFiles := []; isDragOver := false;
     isUploading := false; alertMessage := ""; alertType := "";
     backendUrl := backend; now := 0; timers := []; requests := [] |}.

(** Field updates. *)
Definition set_heap (h : list UploadedFile) (st : State) : State :=
  {| heap := h; uploadedFiles := uploadedFiles st;
     isDragOver := isDragOver st; isUploading := isUploading st;
     alertMessage := alertMessage st; alertType := alertType st;
     backendUrl := backendUrl st; now := now st; timers := timers st;
     requests := requests st |}.

Definition set_uploadedFiles (q : list ref) (st : State) : State :=
  {| heap := heap st; uploadedFiles := q;
     isDragOver := isDragOver st; isUploading := isUploading st;
     alertMessage := alertMessage st; alertType := alertType st;
     backendUrl := backendUrl st; now := now st; timers := timers st;
     requests := requests st |}.

Definition set_isDragOver (b : bool) (st : State) : State :=
  {| heap := heap st; uploadedFiles := uploadedFiles st;
     isDragOver := b; isUploading := isUploading st;
     alertMessage := alertMessage st; alertType := alertType st;
     backendUrl := backendUrl st; now := now st; timers := timers st;
     requests := requests st |}.

Definition set_isUploading (b : bool) (st : State) : State :=
  {| heap := heap st; uploadedFiles := uploadedFiles st;
     isDragOver := isDragOver st; isUploading := b;
     alertMessage := alertMessage st; alertType := alertType st;
     backendUrl := backendUrl st; now := now st; timers := timers st;
     requests := requests st |}.

Definition set_alert (message type : string) (st : State) : State :=
  {| heap := heap st; uploadedFiles := uploadedFiles st;
     isDragOver := isDragOver st; isUploading := isUploading st;
     alertMessage := message; alertType := type;
     backendUrl := backendUrl st; now := now st; timers := timers st;
     requests := requests st |}.

Definition set_now (t : Z) (st : State) : State :=
  {| heap := heap st; uploadedFiles := uploadedFiles st;
     isDragOver := isDragOver st; isUploading := isUploading st;
     alertMessage := alertMessage st; alertType := alertType st;
     backendUrl := backendUrl st; now := t; timers := timers st;
     requests := requests st |}.

Definition set_timers (ts : list Z) (st : State) : State :=
  {| heap := heap st; uploadedFiles := uploadedFiles st;
     isDragOver := isDragOver st; isUploading := isUploading st;
     alertMessage := alertMessage st; alertType := alertType st;
     backendUrl := backendUrl st; now := now st; timers := ts;
     requests := requests st |}.

Definition set_requests (rs : list Request) (st : State) : State :=
  {| heap := heap st; uploadedFiles := uploadedFiles st;
     isDragOver := isDragOver st; isUploading := isUploading st;
     alertMessage := alertMessage st; alertType := alertType st;
     backendUrl := backendUrl st; now := now st; timers := timers st;
     requests := rs |}.

Definition with_progress (p : Z) (f : UploadedFile) : UploadedFile :=
  {| file := file f; progress := p; status := status f; error := error f |}.

Definition with_status (s : Status) (f : UploadedFile) : UploadedFile :=
  {| file := file f; progress := progress f; status := s; error := error f |}.

Definition with_error (e : string) (f : UploadedFile) : UploadedFile :=
  {| file := file f; progress := progress f; status := status f;
     error := Some e |}.

(** A method either returns or throws a [TypeError]; either way the
    component lives on in the state reached so far. *)
Inductive outcome := Ok (st : State) | TypeError (st : State).

Definition state_of (o : outcome) : State :=
  match o with Ok st => st | TypeError st => st end.

(** ** Arrays *)

(** [a[i]]: [undefined] outside the array. *)
Definition array_get {A} (a : list A) (i : Z) : option A :=
  if 0 <=? i then a !! Z.to_nat i else None.

(** [a.findIndex(p)]: the first position satisfying [p], or -1. *)
Fixpoint findIndex {A} (p : A -> bool) (a : list A) : Z :=
  match a with
  | [] => -1
  | x :: a' =>
      if p x then 0
      else let k := findIndex p a' in if k <? 0 then -1 else k + 1
  end.

(** [a.splice(start, 1)]: a negative [start] counts from the end. *)
Definition splice1 {A} (a : list A) (start : Z) : list A :=
  let len := Z.of_nat (length a) in
  let actualStart :=
    if start <? 0 then Z.max (len + start) 0 else Z.min start len in
  let deleteCount := Z.min 1 (len - actualStart) in
  take (Z.to_nat actualStart) a
    ++ drop (Z.to_nat (actualStart + deleteCount)) a.

(** ** isValidFile *)

Definition validExtensions : list string := [".xml"; ".dat"; ".nrs"].
Definition maxSize : Z := 200 * 1024 * 1024.

Definition isValidFile (f : File) : bool :=
  let hasValidExtension :=
    existsb (fun ext => endsWith (toLowerCase (name f)) ext) validExtensions in
  hasValidExtension && (size f <=? maxSize).

(** ** showAlert and its timer *)

Definition alertDelay : Z := 5000.

(** The callback handed to [setTimeout]. *)
Definition clearAlert (st : State) : State := set_alert "" "" st.

(** [setTimeout(cb, 5000)]: the callback is due [alertDelay] from now.
    Nothing ever cancels a pending timer. *)
Definition showAlert (message : string) (type : AlertKind) (st : State) : State :=
  let st := set_alert message ("alert-" ++ kindName type) st in
  set_timers (timers st ++ [now st + alertDelay]) st.

(** The clock moves to [t]: every timer due by then runs and is retired. *)
Definition elapse (t : Z) (st : State) : State :=
  let due := List.filter (fun d => d <=? t) (timers st) in
  let st := fold_left (fun s _ => clearAlert s) due st in
  set_now t (set_timers (List.filter (fun d => t <? d) (timers st)) st).

(** ** addFiles *)

(** [this.uploadedFiles.push({file, progress: 0, status: 'pending'})]:
    a new object is allocated and its reference appended to the queue. *)
Definition push (st : State) (f : File) : State :=
  let r := length (heap st) in
  let item := {| file := f; progress := 0; status := pending; error := None |} in
  set_uploadedFiles (uploadedFiles st ++ [r]) (set_heap (heap st ++ [item]) st).

Definition addFiles (files : list File) (st : State) : State :=
  let validFiles := List.filter isValidFile files in
  let st :=
    if negb (length validFiles =? length files)%nat
    then showAlert "Some files were skipped due to invalid format or size"
                   alert_error st
    else st in
  fold_left push validFiles st.

(** ** Drag and drop, file input *)

Definition onDragOver (st : State) : State := set_isDragOver true st.
Definition onDragLeave (st : State) : State := set_isDragOver false st.

(** [files] is [None] when the event carries no file list. *)
Definition onDrop (files : option (list File)) (st : State) : State :=
  let st := set_isDragOver false st in
  match files with
  | Some fs => addFiles fs st
  | None => st
  end.

Definition onFileSelected (files : option (list File)) (st : State) : State :=
  match files with
  | Some fs => addFiles fs st
  | None => st
  end.

(** ** uploadFile *)

(** *** Double precision

    [2^z] as a fraction [scaleUp z / scaleDn z] of two integers. *)
Definition scaleUp (z : Z) : Z := 2 ^ Z.max z 0.
Definition scaleDn (z : Z) : Z := 2 ^ Z.max (- z) 0.

(** The exponent [e] of a positive [n / d]: [2^e <= n / d < 2^(e+1)]. *)
Definition binade (n d : Z) : Z :=
  let e0 := Z.log2 n - Z.log2 d in
  if scaleUp e0 * d <=? n * scaleDn e0 then e0 else e0 - 1.

(** [N / D] rounded to the nearest integer, a tie to the even one. *)
Definition roundHalfEven (N D : Z) : Z :=
  let q := N / D in
  let r := N mod D in
  if 2 * r <? D then q
  else if D <? 2 * r then q + 1
  else if Z.even q then q else q + 1.

(** The double nearest to a positive [n / d]: the multiple of
    [2^(e-52)] nearest to it, which has a significand of 53 bits. *)
Definition toDoublePos (n d : Z) : Q :=
  let s := binade n d - 52 in
  let M := roundHalfEven (n * scaleDn s) (d * scaleUp s) in
  (M * scaleUp s) # Z.to_pos (scaleDn s).

(** Round to nearest, ties to even (IEEE 754 binary64). *)
Definition toDouble (x : Q) : Q :=
  match Qnum x with
  | Z0 => 0%Q
  | Zpos n => toDoublePos (Zpos n) (Zpos (Qden x))
  | Zneg n => (- toDoublePos (Zpos n) (Zpos (Qden x)))%Q
  end.

(** [Math.round]: the nearest integer, halves upwards; exact on a
    double. *)
Definition Math_round (x : Q) : Z := Qfloor (x + (1 # 2))%Q.

(** [total || 1] on an optional number: [undefined] and 0 are falsy. *)
Definition total_or_1 (total : option Z) : Z :=
  match total with
  | Some t => if t =? 0 then 1 else t
  | None => 1
  end.

(** [Math.round(100 * event.loaded / (event.total || 1))]: the product
    and the quotient are each rounded to a double. *)
Definition progressOf (loaded : Z) (total : option Z) : Z :=
  Math_round (toDouble (toDouble (inject_Z 100 * inject_Z loaded)
                        / inject_Z (total_or_1 total)))%Q.

(** [error.message || 'Upload failed']: [undefined] and [''] are falsy. *)
Definition message_or_default (message : option string) : string :=
  match message with
  | Some m => if String.eqb m "" then "Upload failed" else m
  | None => "Upload failed"
  end.

(** The [next] callback of the request whose [fileItem] is [r]: an
    upload-progress event stores the percentage, the response marks the
    record done, every other event is ignored. *)
Definition onNext (r : ref) (event : HttpEvent) (st : State) : outcome :=
  match heap st !! r with
  | None => TypeError st
  | Some fileItem =>
      match event with
      | UploadProgress loaded total =>
          let progress := progressOf loaded total in
          Ok (set_heap (<[r := with_progress progress fileItem]> (heap st)) st)
      | Response =>
          let fileItem := with_progress 100 (with_status success fileItem) in
          let st := set_heap (<[r := fileItem]> (heap st)) st in
          let st := set_isUploading false st in
          Ok (showAlert ("File " ++ name (file fileItem) ++ " uploaded successfully!")
                        alert_success st)
      | _ => Ok st
      end
  end.

(** The [error] callback of the request whose [fileItem] is [r]. *)
Definition onError (r : ref) (message : option string) (st : State) : outcome :=
  match heap st !! r with
  | None => TypeError st
  | Some fileItem =>
      let e := message_or_default message in
      let fileItem := with_error e (with_status failed fileItem) in
      let st := set_heap (<[r := fileItem]> (heap st)) st in
      let st := set_isUploading false st in
      Ok (showAlert ("Failed to upload " ++ name (file fileItem) ++ ": " ++ e)
                    alert_error st)
  end.

Definition Status_eqb (a b : Status) : bool :=
  match a, b with
  | pending, pending | uploading, uploading
  | success, success | failed, failed => true
  | _, _ => false
  end.

Definition uploadFile (index : Z) (st : State) : outcome :=
  match array_get (uploadedFiles st) index with
  | None => TypeError st
  | Some r =>
      match heap st !! r with
      | None => TypeError st
      | Some fileItem =>
          if Status_eqb (status fileItem) uploading then Ok st
          else
            let st := set_heap (<[r := with_status uploading fileItem]> (heap st)) st in
            let st := set_isUploading true st in
            let form := [("file", FormFile (file fileItem));
                         ("type", FormString "neural-data")] in
            let request := {| target := r; url := backendUrl st;
                              formData := form; live := true |} in
            Ok (set_requests (requests st ++ [request]) st)
      end
  end.

(** ** uploadAllFiles, removeFile, hasPendingFiles *)

(** [f.status === s] for the record behind [r]. *)
Definition statusIs (s : Status) (st : State) (r : ref) : bool :=
  match heap st !! r with
  | Some f => Status_eqb (status f) s
  | None => false
  end.

(** The [forEach] over the snapshot; an exception ends the loop. *)
Fixpoint uploadEach (pendingFiles : list ref) (st : State) : outcome :=
  match pendingFiles with
  | [] => Ok st
  | p :: rest =>
      let originalIndex := findIndex (Nat.eqb p) (uploadedFiles st) in
      match uploadFile originalIndex st with
      | Ok st' => uploadEach rest st'
      | TypeError st' => TypeError st'
      end
  end.

Definition uploadAllFiles (st : State) : outcome :=
  let pendingFiles := List.filter (statusIs pending st) (uploadedFiles st) in
  uploadEach pendingFiles st.

Definition removeFile (index : Z) (st : State) : State :=
  set_uploadedFiles (splice1 (uploadedFiles st) index) st.

Definition hasPendingFiles (st : State) : bool :=
  existsb (statusIs pending st) (uploadedFiles st).

(** ** The component in its environment *)

(** What can happen to the component: a method is called (by the
    template on a user's gesture or, the methods being public, by any
    other code), a request that is still open delivers an event or
    fails, or time passes. *)
Inductive Action :=
  | DragOver
  | DragLeave
  | Drop (files : option (list File))
  | FileSelected (files : option (list File))
  | AddFiles (files : list File)
  | UploadFile (index : Z)
  | UploadAllFiles
  | RemoveFile (index : Z)
  | HttpNext (id : nat) (event : HttpEvent)
  | HttpError (id : nat) (message : option string)
  | Elapse (t : Z)
  | ShowAlert (message : string) (type : AlertKind).

(** [Response] and an error are the last thing a request does. *)
Definition retire (id : nat) (st : State) : State :=
  match requests st !! id with
  | Some rq =>
      let rq := {| target := target rq; url := url rq;
                   formData := formData rq; live := false |} in
      set_requests (<[id := rq]> (requests st)) st
  | None => st
  end.

Definition isResponse (event : HttpEvent) : bool :=
  match event with Response => true | _ => false end.

(** [None]: the action cannot happen in this state (the request is
    unknown or closed, or the clock would run backwards). *)
Definition exec (a : Action) (st : State) : option State :=
  match a with
  | DragOver => Some (onDragOver st)
  | DragLeave => Some (onDragLeave st)
  | Drop files => Some (onDrop files st)
  | FileSelected files => Some (onFileSelected files st)
  | AddFiles files => Some (addFiles files st)
  | UploadFile index => Some (state_of (uploadFile index st))
  | UploadAllFiles => Some (state_of (uploadAllFiles st))
  | RemoveFile index => Some (removeFile index st)
  | HttpNext id event =>
      match requests st !! id with
      | Some rq =>
          if live rq
          then let st := if isResponse event then retire id st else st in
               Some (state_of (onNext (target rq) event st))
          else None
      | None => None
      end
  | HttpError id message =>
      match requests st !! id with
      | Some rq =>
          if live rq
          then Some (state_of (onError (target rq) message (retire id st)))
          else None
      | None => None
      end
  | Elapse t => if now st <=? t then Some (elapse t st) else None
  | ShowAlert message type => Some (showAlert message type st)
  end.

Fixpoint run (trace : list Action) (st : State) : option State :=
  match trace with
  | [] => Some st
  | a :: trace' =>
      match exec a st with
      | Some st' => run trace' st'
      | None => None
      end
  end.

(** Actions that call [showAlert]: adding files of which one is
    rejected, the two terminal events of a request, and a call of
    [showAlert] itself. *)
Definition mayAlert (a : Action) : bool :=
  match a with
  | Drop (Some files) | FileSelected (Some files) | AddFiles files =>
      negb (forallb isValidFile files)
  | HttpNext _ Response | HttpError _ _ => true
  | ShowAlert _ _ => true
  | _ => false
  end.

(** A direct call of [showAlert] is plain when it passes a message that
    is not empty and a kind other than info, as the component's own
    calls do; every other action counts as plain. *)
Definition plainAlert (a : Action) : bool :=
  match a with
  | ShowAlert message type =>
      negb (message =? "")%string &&
      match type with alert_info => false | _ => true end
  | _ => true
  end.

(** The record [addFiles] creates for an accepted file. *)
Definition newItem (f : File) : UploadedFile :=
  {| file := f; progress := 0; status := pending; error := None |}.

(** The reading of "round to the nearest integer" the properties below
    are stated against: [p] is the integer nearest to [num / den], the
    upper one when two are equally near.  [den] is positive. *)
Definition nearest (num den p : Z) : Prop :=
  den * (2 * p - 1) <= 2 * num < den * (2 * p + 1).

(** ** Well-formed states

    What every state the component can reach satisfies: the queue holds
    each record object once, every queued reference is allocated, a
    request that can still emit has a record that is uploading, no two
    such requests share a record, and a record marked success shows
    progress 100. *)
Record wf (st : State) : Prop := {
  wf_nodup : NoDup (uploadedFiles st);
  wf_alloc : forall r, r ∈ uploadedFiles st -> (r < length (heap st))%nat;
  wf_live : forall i rq,
    requests st !! i = Some rq -> live rq = true ->
    exists f, heap st !! target rq = Some f /\ status f = uploading;
  wf_single : forall i j rqi rqj,
    requests st !! i = Some rqi -> requests st !! j = Some rqj ->
    live rqi = true -> live rqj = true ->
    target rqi = target rqj -> i = j;
  wf_success : forall r f,
    heap st !! r = Some f -> status f = success -> progress f = 100
}.

(** A record object that exists and is no longer (or not) in the queue. *)
Definition detached (r : ref) (st : State) : Prop :=
  (r < length (heap st))%nat /\ r ∉ uploadedFiles st.

(** From [st] to [st'] no record object is lost, and whatever the queue
    gained was allocated in between. *)
Definition grows (st st' : State) : Prop :=
  (length (heap st) <= length (heap st'))%nat /\
  forall r, r ∈ uploadedFiles st' ->
            r ∈ uploadedFiles st \/ (length (heap st) <= r)%nat.

(** ** The life of a record

    How one step may change a record: not at all; a progress event on an
    uploading record; the start of an upload on a record that is not
    uploading; the response, or a failure with its message, on an
    uploading record. *)
Definition transition (f f' : UploadedFile) : Prop :=
  f' = f
  \/ (status f = uploading /\ exists p, f' = with_progress p f)
  \/ (status f <> uploading /\ f' = with_status uploading f)
  \/ (status f = uploading /\ f' = with_progress 100 (with_status success f))
  \/ (status f = uploading /\
      exists e, e <> "" /\ f' = with_error e (with_status failed f)).

(** Some request can still emit. *)
Definition inFlight (st : State) : Prop :=
  exists id rq, requests st !! id = Some rq /\ live rq = true.

(** What the view shows of the alert, with the timers behind it. *)
Definition alertView (st : State) : string * string * list Z * Z :=
  (alertMessage st, alertType st, timers st, now st).

(** Every request posted so far went to [backend] and carries the file
    of its record and the type ["neural-data"]. *)
Definition requestsOk (backend : string) (st : State) : Prop :=
  backendUrl st = backend /\
  forall id rq, requests st !! id = Some rq ->
    url rq = backend /\
    exists f, heap st !! target rq = Some f /\
              formData rq = [("file", FormFile (file f));
                             ("type", FormString "neural-data")].

(** Opens the case of [exec] in which request [id] delivers something. *)
Ltac open_request Hex :=
  destruct (requests _ !! _) as [?rq|] eqn:?Hid; [|discriminate];
  destruct (live _) eqn:?Hlive; [|discriminate];
  injection Hex as <-.

(** * Properties *)

(** ** Suffixes *)

Lemma substring_all (s : string) : substring 0 (String.length s) s = s.
Proof. induction s as [|c s IH]; simpl; [reflexivity | now rewrite IH]. Qed.

Lemma substring_skip (pre s : string) (m : nat) :
  substring (String.length pre) m (pre ++ s)%string = substring 0 m s.
Proof. induction pre as [|c pre IH]; simpl; [reflexivity | exact IH]. Qed.

Lemma string_length_app (a b : string) :
  String.length (a ++ b)%string = (String.length a + String.length b)%nat.
Proof. induction a as [|c a IH]; simpl; [reflexivity | now rewrite IH]. Qed.

Lemma substring_split (n : nat) : forall s : string,
  (n <= String.length s)%nat ->
  s = (substring 0 n s ++ substring n (String.length s - n) s)%string.
Proof.
  induction n as [|n IH]; intros s Hn.
  - rewrite Nat.sub_0_r, substring_all. destruct s; reflexivity.
  - destruct s as [|c s]; simpl in *; [lia|].
    f_equal. apply IH. lia.
Qed.

Lemma endsWith_suffix (s ext : string) :
  endsWith s ext = true <-> exists pre, s = (pre ++ ext)%string.
Proof.
  unfold endsWith. split.
  - destruct (Nat.leb_spec (String.length ext) (String.length s)) as [Hle|];
      [|discriminate].
    intros Heq. apply String.eqb_eq in Heq.
    exists (substring 0 (String.length s - String.length ext) s).
    pose proof (substring_split (String.length s - String.length ext) s) as Hs.
    replace (String.length s - (String.length s - String.length ext))%nat
      with (String.length ext) in Hs by lia.
    rewrite Heq in Hs. apply Hs. lia.
  - intros [pre ->]. rewrite string_length_app.
    destruct (Nat.leb_spec (String.length ext)
                (String.length pre + String.length ext)) as [_|]; [|lia].
    replace (String.length pre + String.length ext - String.length ext)%nat
      with (String.length pre) by lia.
    rewrite substring_skip, substring_all. apply String.eqb_refl.
Qed.

(** ** isValidFile *)

(** C1. [isValidFile f] is true exactly when the lower-cased name of [f]
    ends with one of [.xml], [.dat], [.nrs] and the size of [f] is at
    most 209715200 bytes; the bound is inclusive. *)
Theorem isValidFile_iff (f : File) :
  isValidFile f = true <->
  (exists ext, In ext [".xml"; ".dat"; ".nrs"] /\
               exists pre, toLowerCase (name f) = (pre ++ ext)%string)
  /\ size f <= 209715200.
Proof.
  unfold isValidFile. rewrite andb_true_iff, existsb_exists, Z.leb_le.
  change maxSize with 209715200.
  split; intros [[ext [Hin Hext]] Hsize]; (split; [|exact Hsize]);
    exists ext; (split; [exact Hin|]); now apply endsWith_suffix.
Qed.

Example isValidFile_boundary :
  isValidFile {| name := "Rec.DAT"; size := 209715200 |} = true /\
  isValidFile {| name := "Rec.DAT"; size := 209715201 |} = false /\
  isValidFile {| name := "rec.dat.txt"; size := 1 |} = false.
Proof. repeat split; reflexivity. Qed.

(** ** addFiles *)

Lemma push_all_heap (fs : list File) : forall st,
  heap (fold_left push fs st) = heap st ++ map newItem fs.
Proof.
  induction fs as [|f fs IH]; intros st; simpl.
  - now rewrite app_nil_r.
  - rewrite IH. simpl. now rewrite <- app_assoc.
Qed.

Lemma push_all_queue (fs : list File) : forall st,
  uploadedFiles (fold_left push fs st)
  = uploadedFiles st ++ seq (length (heap st)) (length fs).
Proof.
  induction fs as [|f fs IH]; intros st; simpl.
  - now rewrite app_nil_r.
  - rewrite IH. simpl. rewrite length_app, <- app_assoc. simpl.
    now rewrite Nat.add_1_r.
Qed.

Lemma push_all_frame (fs : list File) : forall st,
  let st' := fold_left push fs st in
  isDragOver st' = isDragOver st /\ isUploading st' = isUploading st /\
  alertMessage st' = alertMessage st /\ alertType st' = alertType st /\
  backendUrl st' = backendUrl st /\ now st' = now st /\
  timers st' = timers st /\ requests st' = requests st.
Proof.
  induction fs as [|f fs IH]; intros st; simpl.
  - repeat split.
  - apply (IH (push st f)).
Qed.

Lemma addFiles_shape (files : list File) (st : State) :
  let accepted := List.filter isValidFile files in
  heap (addFiles files st) = heap st ++ map newItem accepted /\
  uploadedFiles (addFiles files st)
    = uploadedFiles st ++ seq (length (heap st)) (length accepted).
Proof.
  unfold addFiles. rewrite push_all_heap, push_all_queue.
  destruct (negb _); split; reflexivity.
Qed.

Lemma filter_length_eq {A} (p : A -> bool) (l : list A) :
  length (List.filter p l) = length l <-> Forall (fun x => p x = true) l.
Proof.
  induction l as [|x l IH]; simpl.
  - split; [constructor | reflexivity].
  - pose proof (List.filter_length_le p l) as Hle.
    destruct (p x) eqn:Hx; simpl.
    + split.
      * intros H. constructor; [exact Hx | apply IH; lia].
      * intros H. inversion H; subst. f_equal. now apply IH.
    + split; [lia|]. intros H. inversion H; congruence.
Qed.

Lemma filter_length_ne {A} (p : A -> bool) (l : list A) :
  length (List.filter p l) <> length l -> Exists (fun x => p x = false) l.
Proof.
  induction l as [|x l IH]; simpl; [congruence|].
  destruct (p x) eqn:Hx; simpl; intros H.
  - apply Exists_cons_tl, IH. congruence.
  - now apply Exists_cons_hd.
Qed.

(** C3. [addFiles] appends to the queue one new record per candidate that
    passes [isValidFile], in input order, each pending with progress 0,
    whatever the queue already holds; and it raises one alert of kind
    error exactly when some candidate was rejected. *)
Theorem addFiles_spec (files : list File) (st : State) :
  let accepted := List.filter isValidFile files in
  let st' := addFiles files st in
  heap st' = heap st ++ map newItem accepted /\
  uploadedFiles st' =
    uploadedFiles st ++ seq (length (heap st)) (length accepted) /\
  ((Exists (fun f => isValidFile f = false) files /\
    alertMessage st' = "Some files were skipped due to invalid format or size" /\
    alertType st' = "alert-error" /\
    timers st' = timers st ++ [now st + 5000])
   \/
   (Forall (fun f => isValidFile f = true) files /\
    alertMessage st' = alertMessage st /\
    alertType st' = alertType st /\
    timers st' = timers st)).
Proof.
  intros accepted st'. subst st'. unfold addFiles. fold accepted.
  rewrite push_all_heap, push_all_queue.
  match goal with |- context [fold_left push accepted ?s] =>
    destruct (push_all_frame accepted s) as (_ & _ & Hm & Ht & _ & _ & Hti & _)
  end.
  rewrite Hm, Ht, Hti. clear Hm Ht Hti.
  destruct (Nat.eqb_spec (length accepted) (length files)) as [Heq|Hne]; simpl.
  - repeat split. right. repeat split.
    now apply filter_length_eq.
  - repeat split. left. repeat split.
    now apply filter_length_ne.
Qed.

Example addFiles_two :
  let st := addFiles [ {| name := "a.xml"; size := 10 |};
                       {| name := "b.exe"; size := 10 |} ] (initial "") in
  map (fun r => heap st !! r) (uploadedFiles st)
    = [Some (newItem {| name := "a.xml"; size := 10 |})]
  /\ alertType st = "alert-error".
Proof. split; reflexivity. Qed.

(** ** uploadFile: the guard *)

Lemma array_get_Some {A} (a : list A) (i : Z) (x : A) :
  array_get a i = Some x <->
  0 <= i < Z.of_nat (length a) /\ a !! Z.to_nat i = Some x.
Proof.
  unfold array_get. destruct (Z.leb_spec 0 i) as [Hi|Hi].
  - split.
    + intros H. pose proof (lookup_lt_Some _ _ _ H). split; [lia | exact H].
    + now intros [_ H].
  - split; [discriminate | lia].
Qed.

Lemma array_get_None {A} (a : list A) (i : Z) :
  array_get a i = None <-> i < 0 \/ Z.of_nat (length a) <= i.
Proof.
  unfold array_get. destruct (Z.leb_spec 0 i) as [Hi|Hi].
  - rewrite lookup_ge_None. lia.
  - split; [lia | reflexivity].
Qed.

Lemma Status_eqb_eq (a b : Status) : Status_eqb a b = true <-> a = b.
Proof. destruct a, b; simpl; split; congruence. Qed.

(** C6. [uploadFile] on a record that is uploading returns without
    changing the state (record, queue, flag, alert, requests); hence of
    two calls in a row on the same record only the first adds a request. *)
Theorem uploadFile_uploading_noop
    (st : State) (index : Z) (r : ref) (fileItem : UploadedFile)
    (Hindex : array_get (uploadedFiles st) index = Some r)
    (Hitem : heap st !! r = Some fileItem) :
  (status fileItem = uploading -> uploadFile index st = Ok st) /\
  (status fileItem <> uploading ->
   exists st1 request,
     uploadFile index st = Ok st1 /\
     requests st1 = requests st ++ [request] /\
     uploadFile index st1 = Ok st1).
Proof.
  unfold uploadFile at 1 2. rewrite Hindex, Hitem. split.
  - intros ->. reflexivity.
  - intros Hne.
    destruct (Status_eqb (status fileItem) uploading) eqn:E;
      [apply Status_eqb_eq in E; contradiction|].
    eexists _, _. split; [reflexivity|]. split; [reflexivity|].
    unfold uploadFile. simpl. rewrite Hindex.
    rewrite list_lookup_insert_eq by (eapply lookup_lt_Some; eassumption).
    reflexivity.
Qed.

Lemma uploadFile_uploading_noop_witness :
  let a := {| name := "a.xml"; size := 10 |} in
  exists st fileItem,
    run [AddFiles [a]; UploadFile 0] (initial "") = Some st /\
    array_get (uploadedFiles st) 0 = Some 0%nat /\
    heap st !! 0%nat = Some fileItem /\
    (status fileItem = uploading -> uploadFile 0 st = Ok st) /\
    (status fileItem <> uploading ->
     exists st1 request,
       uploadFile 0 st = Ok st1 /\
       requests st1 = requests st ++ [request] /\
       uploadFile 0 st1 = Ok st1).
Proof.
  intros a. eexists _, _.
  split; [vm_compute; reflexivity|].
  split; [vm_compute; reflexivity|].
  split; [vm_compute; reflexivity|].
  apply (uploadFile_uploading_noop _ 0 0%nat).
  - vm_compute. reflexivity.
  - vm_compute. reflexivity.
Defined.

Example uploadFile_twice :
  let a := {| name := "a.xml"; size := 10 |} in
  exists st1 st2,
    run [AddFiles [a]; UploadFile 0] (initial "") = Some st1 /\
    run [AddFiles [a]; UploadFile 0; UploadFile 0] (initial "") = Some st2 /\
    st1 = st2 /\ length (requests st2) = 1%nat.
Proof.
  intros a. eexists _, _.
  split; [vm_compute; reflexivity|]. split; [vm_compute; reflexivity|].
  split; reflexivity.
Qed.

(** C10. [uploadFile] at an index with no record reads [status] of
    [undefined]: it throws, and nothing has changed. *)
Theorem uploadFile_out_of_bounds (st : State) (index : Z)
    (Hout : index < 0 \/ Z.of_nat (length (uploadedFiles st)) <= index) :
  uploadFile index st = TypeError st.
Proof.
  unfold uploadFile. apply array_get_None in Hout. now rewrite Hout.
Qed.

Lemma uploadFile_out_of_bounds_witness :
  let st := addFiles [ {| name := "a.xml"; size := 10 |} ] (initial "") in
  (1 < 0 \/ Z.of_nat (length (uploadedFiles st)) <= 1) /\
  uploadFile 1 st = TypeError st.
Proof.
  intros st.
  assert (H : 1 < 0 \/ Z.of_nat (length (uploadedFiles st)) <= 1)
    by (right; vm_compute; discriminate).
  split; [exact H|]. apply (uploadFile_out_of_bounds st 1 H).
Defined.

Example uploadFile_negative_index :
  let st := addFiles [ {| name := "a.xml"; size := 10 |} ] (initial "") in
  uploadFile (-1) st = TypeError st.
Proof. reflexivity. Qed.

(** ** Progress events *)

Lemma quotient_nearest (num den : Z) :
  0 < den -> nearest num den ((2 * num + den) / (2 * den)).
Proof.
  intros Hden. unfold nearest.
  pose proof (Z.div_mod (2 * num + den) (2 * den)) as Hdm.
  pose proof (Z.mod_pos_bound (2 * num + den) (2 * den)) as Hb.
  nia.
Qed.

Lemma nearest_unique (num den p q : Z) :
  0 < den -> nearest num den p -> nearest num den q -> p = q.
Proof. unfold nearest. intros Hden Hp Hq. nia. Qed.

(** *** Rounding to a double *)

Lemma scaleUp_pos z : 0 < scaleUp z.
Proof. unfold scaleUp. apply Z.pow_pos_nonneg; lia. Qed.
Lemma scaleDn_pos z : 0 < scaleDn z.
Proof. unfold scaleDn. apply Z.pow_pos_nonneg; lia. Qed.

Lemma scale_add (x y : Z) :
  scaleUp (x + y) * scaleDn x * scaleDn y = scaleUp x * scaleUp y * scaleDn (x + y).
Proof.
  unfold scaleUp, scaleDn. rewrite <- !Z.pow_add_r by lia. f_equal. lia.
Qed.

Lemma scale_nonneg z : 0 <= z -> scaleUp z = 2 ^ z /\ scaleDn z = 1.
Proof.
  intros H. unfold scaleUp, scaleDn. rewrite Z.max_l by lia. rewrite Z.max_r by lia.
  split; reflexivity.
Qed.

Lemma scale_nonpos z : z <= 0 -> scaleUp z = 1 /\ scaleDn z = 2 ^ (- z).
Proof.
  intros H. unfold scaleUp, scaleDn. rewrite Z.max_r by lia. rewrite Z.max_l by lia.
  split; reflexivity.
Qed.

(** [binade n d] is the exponent of [n / d]. *)
Lemma binade_spec (n d : Z) :
  0 < n -> 0 < d ->
  scaleUp (binade n d) * d <= n * scaleDn (binade n d) /\
  n * scaleDn (binade n d) < 2 * scaleUp (binade n d) * d.
Proof.
  intros Hn Hd. unfold binade.
  set (ln := Z.log2 n). set (ld := Z.log2 d). set (e0 := ln - ld).
  pose proof (Z.log2_spec n Hn) as [Hn1 Hn2]. fold ln in Hn1, Hn2.
  pose proof (Z.log2_spec d Hd) as [Hd1 Hd2]. fold ld in Hd1, Hd2.
  pose proof (Z.log2_nonneg n) as Hln. fold ln in Hln.
  pose proof (Z.log2_nonneg d) as Hld. fold ld in Hld.
  rewrite Z.pow_succ_r in Hn2, Hd2 by lia.
  pose proof (scale_add e0 ld) as Hrel.
  replace (e0 + ld) with ln in Hrel by (subst e0; lia).
  destruct (scale_nonneg ln Hln) as [Huln Hdln].
  destruct (scale_nonneg ld Hld) as [Huld Hdld].
  rewrite Huln, Hdln, Huld, Hdld in Hrel.
  set (A := 2 ^ ln) in *. set (B := 2 ^ ld) in *.
  pose proof (scaleUp_pos e0) as Hu0. pose proof (scaleDn_pos e0) as Hd0.
  destruct (Z.leb_spec (scaleUp e0 * d) (n * scaleDn e0)) as [Hle|Hgt].
  - split; [exact Hle|]. nia.
  - pose proof (scale_add (e0 - 1) 1) as Hrel1.
    replace (e0 - 1 + 1) with e0 in Hrel1 by lia.
    change (scaleDn 1) with 1 in Hrel1. change (scaleUp 1) with 2 in Hrel1.
    pose proof (scaleUp_pos (e0 - 1)) as Hu1. pose proof (scaleDn_pos (e0 - 1)) as Hd1'.
    set (U0 := scaleUp e0) in *. set (D0 := scaleDn e0) in *.
    set (U1 := scaleUp (e0 - 1)) in *. set (D1 := scaleDn (e0 - 1)) in *.
    split.
    + (* U1 d <= n D1 *)
      assert (H : U1 * d * D0 <= n * D1 * D0); [|nia].
      assert (H1 : 2 * (U1 * d * D0) < 2 * (n * D1 * D0)); [|lia].
      replace (2 * (U1 * d * D0)) with ((U0 * D1) * d) by nia.
      assert (U0 * D1 * d < U0 * D1 * (2 * B)) by nia.
      assert (U0 * D1 * (2 * B) = 2 * (A * D0 * D1)) by nia.
      assert (A * D0 * D1 <= n * D0 * D1) by nia.
      nia.
    + assert (H : n * D1 * D0 < 2 * U1 * d * D0); [|nia].
      replace (2 * U1 * d * D0) with (U0 * D1 * d) by nia.
      nia.
Qed.

(** [roundHalfEven N D] is within a half of [N / D]. *)
Lemma roundHalfEven_spec (N D : Z) :
  0 < D -> 2 * roundHalfEven N D * D - D <= 2 * N <= 2 * roundHalfEven N D * D + D.
Proof.
  intros HD. unfold roundHalfEven.
  pose proof (Z.div_mod N D) as Hdm.
  pose proof (Z.mod_pos_bound N D HD) as Hr.
  set (q := N / D) in *. set (r := N mod D) in *.
  destruct (Z.ltb_spec (2 * r) D); [nia|].
  destruct (Z.ltb_spec D (2 * r)); [nia|].
  destruct (Z.even q); nia.
Qed.

(** The scaled quotient lies in [2^52, 2^53). *)
Lemma toDoublePos_scaled (n d : Z) :
  0 < n -> 0 < d ->
  let s := binade n d - 52 in
  2 ^ 52 * (d * scaleUp s) <= n * scaleDn s /\ n * scaleDn s < 2 ^ 53 * (d * scaleUp s).
Proof.
  intros Hn Hd s.
  destruct (binade_spec n d Hn Hd) as [Hlo Hhi].
  pose proof (scale_add s 52) as Hrel.
  replace (s + 52) with (binade n d) in Hrel by (subst s; lia).
  change (scaleDn 52) with 1 in Hrel. change (scaleUp 52) with (2 ^ 52) in Hrel.
  pose proof (scaleUp_pos s). pose proof (scaleDn_pos s).
  pose proof (scaleUp_pos (binade n d)). pose proof (scaleDn_pos (binade n d)).
  set (U := scaleUp (binade n d)) in *. set (Dn := scaleDn (binade n d)) in *.
  set (us := scaleUp s) in *. set (ds := scaleDn s) in *.
  change (2 ^ 53) with (2 * 2 ^ 52). set (T := 2 ^ 52) in *.
  assert (HT : 0 < T) by (subst T; lia).
  split.
  - assert (T * (d * us) * Dn <= n * ds * Dn); [|nia].
    replace (T * (d * us) * Dn) with (U * ds * d) by nia. nia.
  - assert (n * ds * Dn < 2 * T * (d * us) * Dn); [|nia].
    replace (2 * T * (d * us) * Dn) with (2 * U * ds * d) by nia. nia.
Qed.

Lemma roundHalfEven_lower (N D : Z) :
  0 < D -> 2 ^ 52 * D <= N -> 2 ^ 52 <= roundHalfEven N D.
Proof.
  intros HD HN. pose proof (roundHalfEven_spec N D HD) as [_ H]. nia.
Qed.

Lemma toDouble_zero (x : Q) : Qnum x = 0 -> toDouble x = 0%Q.
Proof. intros H. unfold toDouble. now rewrite H. Qed.

(** Rounding a positive number keeps it non-negative and raises it by
    at most one part in 2^53. *)
Lemma toDouble_bounds (x : Q) :
  0 < Qnum x ->
  (0 <= toDouble x)%Q /\
  (toDouble x * inject_Z (2 ^ 53) <= x * inject_Z (2 ^ 53 + 1))%Q.
Proof.
  destruct x as [n d]. cbn [Qnum]. intros Hn.
  destruct n as [|p|p]; try lia. unfold toDouble. cbn [Qnum Qden].
  pose proof (toDoublePos_scaled (Zpos p) (Zpos d) Hn (Pos2Z.is_pos d)) as [Hlo _].
  unfold toDoublePos.
  set (s := binade (Zpos p) (Zpos d) - 52) in *.
  pose proof (scaleUp_pos s) as Hus. pose proof (scaleDn_pos s) as Hds.
  assert (HD : 0 < Zpos d * scaleUp s) by nia.
  pose proof (roundHalfEven_spec (Zpos p * scaleDn s) (Zpos d * scaleUp s) HD) as [Hr _].
  pose proof (roundHalfEven_lower _ _ HD Hlo) as HM.
  set (M := roundHalfEven (Zpos p * scaleDn s) (Zpos d * scaleUp s)) in *.
  unfold Qle, Qmult, inject_Z. cbn [Qnum Qden].
  rewrite !Pos.mul_1_r, Z2Pos.id by exact Hds.
  change (2 ^ 53) with (2 * 2 ^ 52) in *. set (T := 2 ^ 52) in *.
  assert (HT : 0 < T) by (subst T; lia).
  split; [nia|].
  set (D := Zpos d * scaleUp s) in *. set (N := Zpos p * scaleDn s) in *.
  replace (M * scaleUp s * (2 * T) * Zpos d) with ((2 * M * D) * T) by (subst D; ring).
  replace (Zpos p * (2 * T + 1) * scaleDn s) with (2 * N * T + N) by (subst N; ring).
  assert ((2 * M * D) * T <= (2 * N + D) * T) by (apply Z.mul_le_mono_nonneg_r; lia).
  nia.
Qed.

(** An integer below 2^53 is a double. *)
Lemma toDouble_int (a : Z) :
  0 <= a < 2 ^ 53 -> (toDouble (inject_Z a) == inject_Z a)%Q.
Proof.
  intros [Ha0 Ha]. unfold toDouble, inject_Z. cbn [Qnum Qden].
  destruct a as [|p|p]; [reflexivity| |lia].
  pose proof (binade_spec (Zpos p) 1 ltac:(lia) ltac:(lia)) as [Hlo _].
  unfold toDoublePos. change (Zpos 1) with 1.
  set (e := binade (Zpos p) 1) in *.
  assert (He : e <= 52).
  { destruct (Z_le_gt_dec e 52) as [|Hgt]; [assumption|]. exfalso.
    destruct (scale_nonneg e ltac:(lia)) as [Hu Hd]. rewrite Hu, Hd in Hlo.
    assert (2 ^ 53 <= 2 ^ e) by (apply Z.pow_le_mono_r; lia). lia. }
  destruct (scale_nonpos (e - 52) ltac:(lia)) as [Hu Hd]. rewrite Hu.
  pose proof (scaleDn_pos (e - 52)) as Hds.
  set (P := scaleDn (e - 52)) in *.
  assert (Hr : roundHalfEven (Zpos p * P) (1 * 1) = Zpos p * P).
  { unfold roundHalfEven. change (1 * 1) with 1. rewrite Z.mod_1_r, Z.div_1_r. reflexivity. }
  rewrite Hr. unfold Qeq. cbn [Qnum Qden]. rewrite Z2Pos.id by exact Hds. lia.
Qed.

(** Rounding the quotient [a / b] of integers, [a] below 2^52, never
    moves it across a half: rounding to the nearest integer afterwards
    gives what the exact quotient gives. *)
Lemma Math_round_toDouble (x : Q) (a b : Z) :
  (x == a # Z.to_pos b)%Q -> 0 <= a < 2 ^ 52 -> 0 < b ->
  Math_round (toDouble x) = (2 * a + b) / (2 * b).
Proof.
  intros Hx [Ha0 Ha] Hb.
  destruct x as [n d]. unfold Qeq in Hx. cbn [Qnum Qden] in Hx.
  rewrite Z2Pos.id in Hx by exact Hb.
  pose proof (Pos2Z.is_pos d) as Hdpos.
  assert (Hn0 : 0 <= n).
  { destruct (Z_lt_le_dec n 0) as [Hneg|]; [|assumption].
    assert (n * b < 0) by (apply Z.mul_neg_pos; lia).
    assert (0 <= a * Zpos d) by (apply Z.mul_nonneg_nonneg; lia). lia. }
  destruct (Z.eq_dec n 0) as [->|Hnz].
  - assert (a = 0) as -> by nia.
    rewrite toDouble_zero by reflexivity.
    replace (Math_round 0) with 0 by reflexivity.
    symmetry. apply Z.div_small. lia.
  - assert (Hn : 0 < n) by lia. clear Hnz Hn0.
    destruct n as [|p|p]; try lia. unfold toDouble. cbn [Qnum Qden].
    pose proof (binade_spec (Zpos p) (Zpos d) Hn (Pos2Z.is_pos d)) as [Hblo _].
    unfold toDoublePos.
    set (e := binade (Zpos p) (Zpos d)) in *.
    set (n := Zpos p) in *. set (dd := Zpos d) in *.
    assert (Hdd : 0 < dd) by (subst dd; lia).
    set (T := 2 ^ 52) in *.
    assert (HT : 0 < T) by (subst T; lia).
    assert (Hnlt : n < T * dd).
    { assert (n * b < T * dd * b); [|nia].
      rewrite Hx. replace (T * dd * b) with (T * b * dd) by ring.
      apply Z.mul_lt_mono_pos_r; [lia|]. nia. }
    assert (He : e <= 51).
    { destruct (Z_le_gt_dec e 51) as [|Hgt]; [assumption|]. exfalso.
      destruct (scale_nonneg e ltac:(lia)) as [Hu Hd]. rewrite Hu, Hd in Hblo.
      assert (T <= 2 ^ e) by (subst T; apply Z.pow_le_mono_r; lia).
      assert (T * dd <= 2 ^ e * dd) by (apply Z.mul_le_mono_nonneg_r; lia).
      lia. }
    destruct (scale_nonpos (e - 52) ltac:(lia)) as [Hu Hd].
    pose proof (scale_add (e - 52) 52) as Hrel.
    replace (e - 52 + 52) with e in Hrel by lia.
    change (scaleDn 52) with 1 in Hrel. change (scaleUp 52) with T in Hrel.
    rewrite Hu in Hrel. rewrite Hu. rewrite !Z.mul_1_r. rewrite !Z.mul_1_r in Hrel.
    rewrite Z.mul_1_l in Hrel.
    assert (HP : scaleDn (e - 52) = 2 * 2 ^ (51 - e)).
    { rewrite Hd. replace (- (e - 52)) with (Z.succ (51 - e)) by lia.
      apply Z.pow_succ_r. lia. }
    assert (HP' : 0 < 2 ^ (51 - e)) by (apply Z.pow_pos_nonneg; lia).
    clear Hd Hu. set (P' := 2 ^ (51 - e)) in *.
    pose proof (scaleUp_pos e) as Hue. pose proof (scaleDn_pos e) as Hde.
    set (U := scaleUp e) in *. set (Dn := scaleDn e) in *.
    set (P := scaleDn (e - 52)) in *.
    assert (HPpos : 0 < P) by lia.
    (* T dd <= n P *)
    assert (H1 : T * dd <= n * P).
    { assert (T * dd * Dn <= n * P * Dn); [|nia].
      replace (T * dd * Dn) with (U * P * dd) by (rewrite Hrel; ring).
      replace (n * P * Dn) with (n * Dn * P) by ring.
      replace (U * P * dd) with (U * dd * P) by ring.
      apply Z.mul_le_mono_nonneg_r; lia. }
    assert (HbP : b < P).
    { assert (T * b * dd <= a * P * dd).
      { replace (T * b * dd) with (T * dd * b) by ring.
        replace (a * P * dd) with (n * P * b)
          by (transitivity (P * (n * b)); [ring | rewrite Hx; ring]).
        apply Z.mul_le_mono_nonneg_r; lia. }
      assert (T * b <= a * P) by nia.
      assert (a * P < T * P) by (apply Z.mul_lt_mono_pos_r; lia).
      nia. }
    pose proof (roundHalfEven_spec (n * P) dd Hdd) as [Hr1 Hr2].
    set (M := roundHalfEven (n * P) dd) in *.
    set (k := (2 * a + b) / (2 * b)).
    assert (Hk : 2 * b * k <= 2 * a + b < 2 * b * (k + 1)).
    { subst k. pose proof (Z.div_mod (2 * a + b) (2 * b)) as Hdm.
      pose proof (Z.mod_pos_bound (2 * a + b) (2 * b)) as Hmb. lia. }
    clearbody k. clear H1 Hblo Hrel Hnlt He Ha HT. clearbody T U Dn.
    assert (Hk1 : (2 * k - 1) * dd <= 2 * n).
    { assert ((2 * k - 1) * dd * b <= 2 * n * b); [|nia].
      replace (2 * n * b) with (2 * a * dd)
        by (transitivity (2 * (n * b)); [rewrite Hx; ring | ring]).
      replace ((2 * k - 1) * dd * b) with ((2 * b * k - b) * dd) by ring.
      apply Z.mul_le_mono_nonneg_r; lia. }
    assert (Hk2 : dd <= ((2 * k + 1) * dd - 2 * n) * b).
    { replace (((2 * k + 1) * dd - 2 * n) * b)
        with (((2 * k + 1) * b - 2 * a) * dd)
        by (transitivity ((2 * k + 1) * b * dd - 2 * (n * b));
            [rewrite Hx; ring | ring]).
      nia. }
    clearbody P P' M. subst P. clear HPpos.
    assert (Hlow : (2 * k - 1) * P' <= M).
    { assert (H : (2 * k - 1) * dd * (2 * P') <= 2 * (n * (2 * P'))).
      { replace (2 * (n * (2 * P'))) with (2 * n * (2 * P')) by ring.
        apply Z.mul_le_mono_nonneg_r; lia. }
      assert (H' : (2 * (2 * k - 1) * P') * dd <= (2 * M + 1) * dd)
        by (replace ((2 * M + 1) * dd) with (2 * M * dd + dd) by ring;
            replace (2 * (2 * k - 1) * P' * dd) with ((2 * k - 1) * dd * (2 * P')) by ring;
            lia).
      apply Z.mul_le_mono_pos_r in H'; lia. }
    assert (Hupp : M < (2 * k + 1) * P').
    { set (G := (2 * k + 1) * dd - 2 * n) in *.
      assert (HG : 0 < G).
      { destruct (Z_lt_le_dec 0 G) as [|Hle]; [assumption|]. exfalso.
        assert (G * b <= 0) by (apply Z.mul_nonpos_nonneg; lia). lia. }
      assert (H : G * b < G * (2 * P')) by (apply Z.mul_lt_mono_pos_l; lia).
      assert (H' : (2 * M) * dd < (2 * (2 * k + 1) * P') * dd).
      { replace (2 * (2 * k + 1) * P' * dd)
          with (G * (2 * P') + 2 * (n * (2 * P'))) by (subst G; ring).
        lia. }
      apply Z.mul_lt_mono_pos_r in H'; lia. }
    unfold Math_round, Qplus, Qfloor. cbn [Qnum Qden].
    rewrite Pos2Z.inj_mul, Z2Pos.id by lia.
    symmetry. apply Z.div_unique_pos with (r := M * 2 + 1 * (2 * P') - k * (2 * P' * 2)).
    + lia.
    + lia.
Qed.


(** Below 2^52 the percentage is the exact quotient rounded, halves
    upwards. *)
Lemma progressOf_exact (loaded : Z) (total : option Z) :
  0 <= loaded -> 100 * loaded < 2 ^ 52 -> 0 < total_or_1 total ->
  progressOf loaded total
  = (200 * loaded + total_or_1 total) / (2 * total_or_1 total).
Proof.
  intros Hl Hb Hd. unfold progressOf.
  set (d := total_or_1 total) in *.
  rewrite (Math_round_toDouble _ (100 * loaded) d); [f_equal; lia | | lia | exact Hd].
  change (inject_Z 100 * inject_Z loaded)%Q with (inject_Z (100 * loaded)).
  rewrite toDouble_int by lia.
  unfold Qeq, Qdiv, Qmult, Qinv, inject_Z. cbn [Qnum Qden].
  destruct d as [|p|p]; try lia. cbn [Qnum Qden]. rewrite Pos2Z.id. lia.
Qed.





Example progressOf_values :
  progressOf 1 (Some 8) = 13 /\ progressOf 1 (Some 3) = 33 /\
  progressOf 5 (Some 0) = 500 /\ progressOf 5 None = 500 /\
  progressOf 7 (Some 7) = 100.
Proof. repeat split; vm_compute; reflexivity. Qed.

(** ** The error callback *)

(** C4.  The error callback marks the record failed, stores the
    transport's message when there is one and ["Upload failed"] when
    there is none, lowers [isUploading], and raises an alert of kind
    error that names the file and that message.  There is a message when
    [error.message] is a string that is not empty: an [Error] made
    without a message carries the empty one. *)
Theorem onError_spec
    (st : State) (r : ref) (fileItem : UploadedFile) (message : option string)
    (Hitem : heap st !! r = Some fileItem) :
  exists st' e,
    onError r message st = Ok st' /\
    (forall m, message = Some m -> m <> "" -> e = m) /\
    (message = None \/ message = Some "" -> e = "Upload failed") /\
    heap st' !! r = Some {| file := file fileItem; progress := progress fileItem;
                            status := failed; error := Some e |} /\
    isUploading st' = false /\
    alertType st' = "alert-error" /\
    alertMessage st' = ("Failed to upload " ++ name (file fileItem) ++ ": " ++ e)%string.
Proof.
  unfold onError. rewrite Hitem.
  eexists _, (message_or_default message).
  split; [reflexivity|]. split; [|split].
  - intros m -> Hm. simpl. destruct (String.eqb_spec m ""); congruence.
  - intros [-> | ->]; reflexivity.
  - simpl. rewrite list_lookup_insert_eq by (eapply lookup_lt_Some; eassumption).
    repeat split.
Qed.

Lemma onError_spec_witness :
  let st := set_heap [newItem {| name := "a.xml"; size := 8 |}] (initial "") in
  exists st' e,
    onError 0%nat (Some "timeout") st = Ok st' /\
    (forall m, Some "timeout" = Some m -> m <> "" -> e = m) /\
    (Some "timeout" = None \/ Some "timeout" = Some "" -> e = "Upload failed") /\
    heap st' !! 0%nat
      = Some {| file := {| name := "a.xml"; size := 8 |}; progress := 0;
                status := failed; error := Some e |} /\
    isUploading st' = false /\
    alertType st' = "alert-error" /\
    alertMessage st' = ("Failed to upload " ++ "a.xml" ++ ": " ++ e)%string.
Proof.
  apply (onError_spec
           (set_heap [newItem {| name := "a.xml"; size := 8 |}] (initial ""))
           0%nat (newItem {| name := "a.xml"; size := 8 |}) (Some "timeout")).
  reflexivity.
Defined.

(** The empty message counts as none. *)
Example onError_empty_message :
  let st := set_heap [newItem {| name := "a.xml"; size := 8 |}] (initial "") in
  exists st' f,
    onError 0%nat (Some "") st = Ok st' /\
    heap st' !! 0%nat = Some f /\
    error f = Some "Upload failed" /\
    error f <> Some "".
Proof.
  eexists _, _. split; [reflexivity|]. split; [reflexivity|].
  split; [reflexivity | discriminate].
Qed.

(** ** Well-formedness is preserved *)

Lemma wf_initial (backend : string) : wf (initial backend).
Proof.
  constructor; simpl.
  - constructor.
  - intros r Hr. inversion Hr.
  - intros i rq H. now rewrite lookup_nil in H.
  - intros i j rqi rqj H. now rewrite lookup_nil in H.
  - intros r f H. now rewrite lookup_nil in H.
Qed.

Lemma wf_frame (st st' : State) :
  heap st' = heap st -> uploadedFiles st' = uploadedFiles st ->
  requests st' = requests st -> wf st -> wf st'.
Proof.
  intros Hh Hq Hr [H1 H2 H3 H4 H5].
  constructor; rewrite ?Hh, ?Hq, ?Hr; assumption.
Qed.

Lemma wf_showAlert (message : string) (type : AlertKind) (st : State) :
  wf st -> wf (showAlert message type st).
Proof. apply wf_frame; reflexivity. Qed.

Lemma wf_elapse (t : Z) (st : State) : wf st -> wf (elapse t st).
Proof.
  unfold elapse. generalize (List.filter (fun d => d <=? t) (timers st)).
  intros due. revert st. induction due as [|d due IH]; intros st Hwf; simpl.
  - revert Hwf. apply wf_frame; reflexivity.
  - specialize (IH (clearAlert st)). simpl in IH. apply IH.
    revert Hwf. apply wf_frame; reflexivity.
Qed.

Lemma wf_push (st : State) (f : File) : wf st -> wf (push st f).
Proof.
  intros [H1 H2 H3 H4 H5]. constructor; simpl.
  - apply NoDup_app. split; [exact H1|]. split; [|apply NoDup_singleton].
    intros r Hr Hin. apply list_elem_of_singleton in Hin. subst r.
    apply H2 in Hr. lia.
  - intros r Hr. rewrite length_app. simpl.
    apply elem_of_app in Hr. destruct Hr as [Hr|Hr].
    + apply H2 in Hr. lia.
    + apply list_elem_of_singleton in Hr. lia.
  - intros i rq Hi Hl. destruct (H3 i rq Hi Hl) as [g [Hg Hs]].
    exists g. split; [now apply lookup_app_l_Some | exact Hs].
  - exact H4.
  - intros r g Hg Hs. apply lookup_app_Some in Hg.
    destruct Hg as [Hg | [_ Hg]]; [now apply (H5 r)|].
    apply list_lookup_singleton_Some in Hg. destruct Hg as [_ <-].
    discriminate.
Qed.

Lemma wf_push_all (fs : list File) : forall st,
  wf st -> wf (fold_left push fs st).
Proof.
  induction fs as [|f fs IH]; intros st Hwf; simpl; [exact Hwf|].
  apply IH, wf_push, Hwf.
Qed.

Lemma wf_addFiles (files : list File) (st : State) :
  wf st -> wf (addFiles files st).
Proof.
  intros Hwf. unfold addFiles. apply wf_push_all.
  destruct (negb _); [now apply wf_showAlert | exact Hwf].
Qed.

(** Overwriting one record keeps the state well-formed when the new
    record is consistent and either keeps its status or has no request
    left that could still emit. *)
Lemma wf_store (st : State) (r : ref) (old new : UploadedFile) :
  wf st ->
  heap st !! r = Some old ->
  (status new = success -> progress new = 100) ->
  (status new = status old \/
   forall i rq, requests st !! i = Some rq -> live rq = true -> target rq <> r) ->
  wf (set_heap (<[r := new]> (heap st)) st).
Proof.
  intros [H1 H2 H3 H4 H5] Hold Hnew Hcase.
  pose proof (lookup_lt_Some _ _ _ Hold) as Hlt.
  constructor; simpl.
  - exact H1.
  - intros r' Hr'. rewrite length_insert. now apply H2.
  - intros i rq Hi Hl. destruct (H3 i rq Hi Hl) as [g [Hg Hs]].
    destruct (decide (target rq = r)) as [Heq|Hne].
    + rewrite Heq in *. rewrite list_lookup_insert_eq by exact Hlt.
      exists new. split; [reflexivity|].
      destruct Hcase as [Hsame|Hnone].
      * congruence.
      * exfalso. now apply (Hnone i rq).
    + exists g. rewrite list_lookup_insert_ne by congruence. now split.
  - exact H4.
  - intros r' g Hg Hs. destruct (decide (r' = r)) as [->|Hne].
    + rewrite list_lookup_insert_eq in Hg by exact Hlt.
      injection Hg as <-. now apply Hnew.
    + rewrite list_lookup_insert_ne in Hg by congruence. now apply (H5 r').
Qed.

Lemma wf_post (st : State) (rq : Request) (f : UploadedFile) :
  wf st ->
  heap st !! target rq = Some f -> status f = uploading ->
  (forall i rq', requests st !! i = Some rq' -> live rq' = true ->
                 target rq' <> target rq) ->
  wf (set_requests (requests st ++ [rq]) st).
Proof.
  intros [H1 H2 H3 H4 H5] Hf Hs Hnone. constructor; simpl; try assumption.
  - intros i rq' Hi Hl. apply lookup_snoc_Some in Hi.
    destruct Hi as [[_ Hi] | [_ <-]]; [now apply (H3 i) | eauto].
  - intros i j rqi rqj Hi Hj Hli Hlj Heq.
    apply lookup_snoc_Some in Hi. apply lookup_snoc_Some in Hj.
    destruct Hi as [[_ Hi] | [-> <-]], Hj as [[_ Hj] | [-> <-]].
    + now apply (H4 i j rqi rqj).
    + exfalso. now apply (Hnone i rqi).
    + exfalso. now apply (Hnone j rqj).
    + reflexivity.
Qed.

Lemma wf_uploadFile (index : Z) (st : State) :
  wf st -> wf (state_of (uploadFile index st)).
Proof.
  intros Hwf. unfold uploadFile.
  destruct (array_get (uploadedFiles st) index) as [r|]; [|exact Hwf].
  destruct (heap st !! r) as [fileItem|] eqn:Hitem; [|exact Hwf].
  destruct (Status_eqb (status fileItem) uploading) eqn:E; [exact Hwf|].
  assert (Hquiet : forall i rq, requests st !! i = Some rq -> live rq = true ->
                                target rq <> r).
  { intros i rq Hi Hl Heq. destruct (wf_live st Hwf i rq Hi Hl) as [g [Hg Hs]].
    rewrite Heq, Hitem in Hg. injection Hg as <-.
    apply Status_eqb_eq in Hs. congruence. }
  simpl.
  match goal with |- wf (set_requests (_ ++ [?rq]) ?s) =>
    apply (wf_post s rq (with_status uploading fileItem))
  end.
  - apply (wf_frame (set_heap (<[r := with_status uploading fileItem]> (heap st)) st));
      try reflexivity.
    apply (wf_store st r fileItem); auto. discriminate.
  - simpl. apply list_lookup_insert_eq. eapply lookup_lt_Some; eassumption.
  - reflexivity.
  - exact Hquiet.
Qed.

Lemma wf_uploadEach (pendingFiles : list ref) : forall st,
  wf st -> wf (state_of (uploadEach pendingFiles st)).
Proof.
  induction pendingFiles as [|p rest IH]; intros st Hwf; simpl; [exact Hwf|].
  pose proof (wf_uploadFile (findIndex (Nat.eqb p) (uploadedFiles st)) st Hwf) as H.
  destruct (uploadFile _ st) as [st'|st']; simpl in H; [now apply IH | exact H].
Qed.

Lemma splice1_sublist {A} (a : list A) (start : Z) :
  splice1 a start `sublist_of` a.
Proof.
  unfold splice1.
  set (len := Z.of_nat (length a)).
  set (actualStart := if start <? 0 then Z.max (len + start) 0 else Z.min start len).
  set (deleteCount := Z.min 1 (len - actualStart)).
  assert (H0 : 0 <= actualStart <= len).
  { subst actualStart len. destruct (start <? 0) eqn:E; lia. }
  assert (H1 : 0 <= deleteCount) by (subst deleteCount; lia).
  rewrite <- (take_drop (Z.to_nat actualStart) a) at 3.
  apply sublist_app; [reflexivity|].
  replace (Z.to_nat (actualStart + deleteCount))
    with (Z.to_nat actualStart + Z.to_nat deleteCount)%nat by lia.
  rewrite <- drop_drop. apply sublist_drop.
Qed.

Lemma splice1_in_bounds {A} (a : list A) (index : Z) :
  0 <= index < Z.of_nat (length a) ->
  splice1 a index = delete (Z.to_nat index) a.
Proof.
  intros Hin. unfold splice1.
  destruct (Z.ltb_spec index 0) as [|_]; [lia|].
  rewrite (Z.min_l index) by lia. rewrite Z.min_l by lia.
  rewrite delete_take_drop. f_equal. f_equal. lia.
Qed.

Lemma wf_removeFile (index : Z) (st : State) :
  wf st -> wf (removeFile index st).
Proof.
  intros [H1 H2 H3 H4 H5]. constructor; simpl; try assumption.
  - eapply sublist_NoDup; [exact H1 | apply splice1_sublist].
  - intros r Hr. apply H2. eapply elem_of_sublist; [exact Hr|].
    apply splice1_sublist.
Qed.

Lemma retire_requests (id : nat) (st : State) (rq : Request) :
  requests st !! id = Some rq ->
  forall i rq', requests (retire id st) !! i = Some rq' -> live rq' = true ->
                i <> id /\ requests st !! i = Some rq'.
Proof.
  intros Hid i rq' Hi Hl. unfold retire in Hi. rewrite Hid in Hi. simpl in Hi.
  destruct (decide (i = id)) as [->|Hne].
  - rewrite list_lookup_insert_eq in Hi by (eapply lookup_lt_Some; eassumption).
    injection Hi as <-. discriminate.
  - rewrite list_lookup_insert_ne in Hi by congruence. now split.
Qed.

Lemma wf_retire (id : nat) (st : State) : wf st -> wf (retire id st).
Proof.
  intros Hwf. destruct (requests st !! id) as [rq|] eqn:Hid.
  2:{ unfold retire. now rewrite Hid. }
  pose proof (retire_requests id st rq Hid) as Hret.
  assert (Hh : heap (retire id st) = heap st)
    by (unfold retire; now rewrite Hid).
  assert (Hq : uploadedFiles (retire id st) = uploadedFiles st)
    by (unfold retire; now rewrite Hid).
  destruct Hwf as [H1 H2 H3 H4 H5].
  constructor; rewrite ?Hh, ?Hq; try assumption.
  - intros i rq' Hi Hl. destruct (Hret i rq' Hi Hl) as [_ Hi'].
    now apply (H3 i).
  - intros i j rqi rqj Hi Hj Hli Hlj Heq.
    destruct (Hret i rqi Hi Hli) as [_ Hi'].
    destruct (Hret j rqj Hj Hlj) as [_ Hj'].
    now apply (H4 i j rqi rqj).
Qed.

(** Once a request is retired, none that can still emit has its record. *)
Lemma retire_quiet (id : nat) (st : State) (rq : Request) :
  wf st -> requests st !! id = Some rq -> live rq = true ->
  forall i rq', requests (retire id st) !! i = Some rq' -> live rq' = true ->
                target rq' <> target rq.
Proof.
  intros Hwf Hid Hlive i rq' Hi Hl Heq.
  destruct (retire_requests id st rq Hid i rq' Hi Hl) as [Hne Hi'].
  apply Hne. now apply (wf_single st Hwf i id rq' rq).
Qed.

Lemma retire_heap (id : nat) (st : State) : heap (retire id st) = heap st.
Proof. unfold retire. now destruct (requests st !! id). Qed.

Lemma retire_queue (id : nat) (st : State) :
  uploadedFiles (retire id st) = uploadedFiles st.
Proof. unfold retire. now destruct (requests st !! id). Qed.

Lemma wf_onNext (id : nat) (rq : Request) (event : HttpEvent) (st : State) :
  wf st -> requests st !! id = Some rq -> live rq = true ->
  wf (state_of (onNext (target rq) event
                  (if isResponse event then retire id st else st))).
Proof.
  intros Hwf Hid Hlive.
  destruct (wf_live st Hwf id rq Hid Hlive) as [fileItem [Hitem Hup]].
  unfold onNext. destruct event; simpl; rewrite ?retire_heap, Hitem; simpl;
    try exact Hwf.
  - apply (wf_store st (target rq) fileItem); auto.
    simpl. congruence.
  - apply wf_showAlert.
    match goal with |- wf (set_isUploading _ ?s) =>
      apply (wf_frame s); try reflexivity end.
    rewrite <- (retire_heap id st).
    apply (wf_store (retire id st) (target rq) fileItem).
    + now apply wf_retire.
    + now rewrite retire_heap.
    + reflexivity.
    + right. now apply retire_quiet.
Qed.

Lemma wf_onError (id : nat) (rq : Request) (message : option string) (st : State) :
  wf st -> requests st !! id = Some rq -> live rq = true ->
  wf (state_of (onError (target rq) message (retire id st))).
Proof.
  intros Hwf Hid Hlive.
  destruct (wf_live st Hwf id rq Hid Hlive) as [fileItem [Hitem Hup]].
  unfold onError. rewrite retire_heap, Hitem. simpl.
  apply wf_showAlert.
  match goal with |- wf (set_isUploading _ ?s) =>
    apply (wf_frame s); try reflexivity end.
  rewrite <- (retire_heap id st).
  apply (wf_store (retire id st) (target rq) fileItem).
  - now apply wf_retire.
  - now rewrite retire_heap.
  - discriminate.
  - right. now apply retire_quiet.
Qed.

Lemma wf_exec (a : Action) (st st' : State) :
  wf st -> exec a st = Some st' -> wf st'.
Proof.
  intros Hwf Hex. destruct a; simpl in Hex.
  - injection Hex as <-. revert Hwf. apply wf_frame; reflexivity.
  - injection Hex as <-. revert Hwf. apply wf_frame; reflexivity.
  - injection Hex as <-. unfold onDrop.
    assert (wf (set_isDragOver false st))
      by (revert Hwf; apply wf_frame; reflexivity).
    destruct files; [now apply wf_addFiles | assumption].
  - injection Hex as <-. unfold onFileSelected.
    destruct files; [now apply wf_addFiles | assumption].
  - injection Hex as <-. now apply wf_addFiles.
  - injection Hex as <-. now apply wf_uploadFile.
  - injection Hex as <-. now apply wf_uploadEach.
  - injection Hex as <-. now apply wf_removeFile.
  - open_request Hex. now apply (wf_onNext id).
  - open_request Hex. now apply (wf_onError id).
  - destruct (now st <=? t); [|discriminate].
    injection Hex as <-. now apply wf_elapse.
  - injection Hex as <-. now apply wf_showAlert.
Qed.

Lemma wf_run (trace : list Action) : forall st st',
  wf st -> run trace st = Some st' -> wf st'.
Proof.
  induction trace as [|a trace IH]; intros st st' Hwf Hrun; simpl in Hrun.
  - now injection Hrun as <-.
  - destruct (exec a st) as [st1|] eqn:Hex; [|discriminate].
    apply (IH st1); [|exact Hrun]. now apply (wf_exec a st).
Qed.

Lemma wf_reachable (backend : string) (trace : list Action) (st : State) :
  run trace (initial backend) = Some st -> wf st.
Proof. apply wf_run, wf_initial. Qed.

(** ** Progress and status *)

(** C2, as the code has it.  In every state the component can reach, a
    record whose status is success has progress 100, and the terminal
    success event of an open request leaves its record with status
    success and progress 100 together and [isUploading] false.  The
    converse fails: a progress event can store 100 before the request
    has succeeded. *)
Theorem success_implies_full_progress
    (backend : string) (trace : list Action) (st : State)
    (Hrun : run trace (initial backend) = Some st) :
  (forall r f, heap st !! r = Some f -> status f = success -> progress f = 100)
  /\
  (forall id rq, requests st !! id = Some rq -> live rq = true ->
     exists st' f,
       exec (HttpNext id Response) st = Some st' /\
       heap st' !! target rq = Some f /\
       status f = success /\ progress f = 100 /\
       isUploading st' = false).
Proof.
  pose proof (wf_reachable backend trace st Hrun) as Hwf. split.
  - exact (wf_success st Hwf).
  - intros id rq Hid Hlive.
    destruct (wf_live st Hwf id rq Hid Hlive) as [fileItem [Hitem _]].
    unfold exec. rewrite Hid, Hlive. cbn [isResponse].
    pose proof (retire_heap id st) as Hheap.
    destruct (retire id st) as [h q d u m ty b n ts rs]. simpl in Hheap. subst h.
    unfold onNext. cbn [heap]. rewrite Hitem.
    eexists _, (with_progress 100 (with_status success fileItem)).
    split; [reflexivity|]. simpl. split; [|repeat split].
    apply list_lookup_insert_eq. eapply lookup_lt_Some; eassumption.
Qed.

Lemma success_implies_full_progress_witness :
  let a := {| name := "a.xml"; size := 10 |} in
  let b := {| name := "b.dat"; size := 20 |} in
  let trace := [AddFiles [a; b]; UploadAllFiles;
                HttpNext 0 (UploadProgress 4 (Some 10)); HttpNext 0 Response] in
  exists st,
    run trace (initial "") = Some st /\
    (forall r f, heap st !! r = Some f -> status f = success -> progress f = 100)
    /\
    (forall id rq, requests st !! id = Some rq -> live rq = true ->
       exists st' f,
         exec (HttpNext id Response) st = Some st' /\
         heap st' !! target rq = Some f /\
         status f = success /\ progress f = 100 /\
         isUploading st' = false).
Proof.
  intros a b trace. eexists. split; [vm_compute; reflexivity|].
  apply (success_implies_full_progress "" trace). vm_compute. reflexivity.
Defined.

(** A progress event whose [loaded] equals its [total] stores 100 while
    the record is still uploading, and a failure after it leaves the
    record failed with progress 100: progress 100 does not imply
    success. *)
Lemma full_progress_without_success :
  let a := {| name := "a.xml"; size := 10 |} in
  let trace := [AddFiles [a]; UploadFile 0;
                HttpNext 0 (UploadProgress 10 (Some 10))] in
  exists st1 st2 f1 f2,
    run trace (initial "") = Some st1 /\
    heap st1 !! 0%nat = Some f1 /\
    status f1 = uploading /\ progress f1 = 100 /\
    ~ (progress f1 = 100 <-> status f1 = success) /\
    run (trace ++ [HttpError 0 None]) (initial "") = Some st2 /\
    heap st2 !! 0%nat = Some f2 /\
    status f2 = failed /\ progress f2 = 100 /\
    ~ (progress f2 = 100 <-> status f2 = success).
Proof.
  intros a trace. eexists _, _, _, _.
  split; [vm_compute; reflexivity|]. split; [vm_compute; reflexivity|].
  split; [reflexivity|]. split; [reflexivity|].
  split; [intros [H _]; specialize (H eq_refl); discriminate|].
  split; [vm_compute; reflexivity|]. split; [vm_compute; reflexivity|].
  split; [reflexivity|]. split; [reflexivity|].
  intros [H _]. specialize (H eq_refl). discriminate.
Qed.

(** ** Alerts and their timers *)

Lemma clear_all (due : list Z) : forall st,
  let st' := fold_left (fun s _ => clearAlert s) due st in
  timers st' = timers st /\ now st' = now st /\
  (due = [] -> alertMessage st' = alertMessage st /\ alertType st' = alertType st) /\
  (due <> [] -> alertMessage st' = "" /\ alertType st' = "").
Proof.
  induction due as [|d due IH]; intros st; simpl.
  - split; [reflexivity|]. split; [reflexivity|]. split.
    + intros _. split; reflexivity.
    + intros H. contradiction.
  - destruct (IH (clearAlert st)) as (Ht & Hn & Hnil & Hcons).
    split; [exact Ht|]. split; [exact Hn|]. split; [discriminate|].
    intros _. destruct due as [|d' due].
    + apply (Hnil eq_refl).
    + apply Hcons. discriminate.
Qed.

Lemma elapse_now (t : Z) (st : State) : now (elapse t st) = t.
Proof. reflexivity. Qed.

Lemma elapse_timers (t : Z) (st : State) :
  timers (elapse t st) = List.filter (fun d => t <? d) (timers st).
Proof.
  unfold elapse. simpl.
  now destruct (clear_all (List.filter (fun d => d <=? t) (timers st)) st) as [-> _].
Qed.

(** A timer that is due clears whatever alert is showing. *)
Lemma elapse_due (t d : Z) (st : State) :
  In d (timers st) -> d <= t ->
  alertMessage (elapse t st) = "" /\ alertType (elapse t st) = "".
Proof.
  intros Hin Hle. unfold elapse. simpl.
  destruct (clear_all (List.filter (fun d => d <=? t) (timers st)) st)
    as (_ & _ & _ & Hcons).
  apply Hcons. intros Hnil.
  assert (Hd : In d (List.filter (fun d => d <=? t) (timers st))).
  { apply filter_In. split; [exact Hin | now apply Z.leb_le]. }
  rewrite Hnil in Hd. inversion Hd.
Qed.

(** While no timer is due the alert stays. *)
Lemma elapse_early (t : Z) (st : State) :
  Forall (fun d => t < d) (timers st) ->
  alertMessage (elapse t st) = alertMessage st /\
  alertType (elapse t st) = alertType st.
Proof.
  intros Hall. unfold elapse. simpl.
  destruct (clear_all (List.filter (fun d => d <=? t) (timers st)) st)
    as (_ & _ & Hnil & _).
  apply Hnil.
  destruct (List.filter (fun d => d <=? t) (timers st)) as [|d l] eqn:E;
    [reflexivity|].
  assert (Hd : In d (List.filter (fun d => d <=? t) (timers st)))
    by (rewrite E; now left).
  apply filter_In in Hd. destruct Hd as [Hin Hle].
  rewrite List.Forall_forall in Hall. apply Hall in Hin.
  apply Z.leb_le in Hle. lia.
Qed.

Lemma elapse_empty (t : Z) (st : State) :
  alertMessage st = "" -> alertType st = "" ->
  alertMessage (elapse t st) = "" /\ alertType (elapse t st) = "".
Proof.
  intros Hm Ht. unfold elapse. simpl.
  destruct (clear_all (List.filter (fun d => d <=? t) (timers st)) st)
    as (_ & _ & Hnil & Hcons).
  destruct (List.filter (fun d => d <=? t) (timers st)) as [|d l].
  - destruct (Hnil eq_refl) as [-> ->]. now split.
  - now apply Hcons.
Qed.

Lemma uploadFile_alert (index : Z) (st : State) :
  let st' := state_of (uploadFile index st) in
  alertMessage st' = alertMessage st /\ alertType st' = alertType st /\
  timers st' = timers st /\ now st' = now st.
Proof.
  unfold uploadFile.
  destruct (array_get (uploadedFiles st) index) as [r|]; [|now repeat split].
  destruct (heap st !! r) as [fileItem|]; [|now repeat split].
  destruct (Status_eqb (status fileItem) uploading); now repeat split.
Qed.

Lemma uploadEach_alert (pendingFiles : list ref) : forall st,
  let st' := state_of (uploadEach pendingFiles st) in
  alertMessage st' = alertMessage st /\ alertType st' = alertType st /\
  timers st' = timers st /\ now st' = now st.
Proof.
  induction pendingFiles as [|p rest IH]; intros st; simpl; [now repeat split|].
  pose proof (uploadFile_alert (findIndex (Nat.eqb p) (uploadedFiles st)) st) as H.
  destruct (uploadFile _ st) as [st1|st1]; simpl in H.
  - destruct (IH st1) as (-> & -> & -> & ->). exact H.
  - exact H.
Qed.

Lemma addFiles_quiet (files : list File) (st : State) :
  forallb isValidFile files = true ->
  let st' := addFiles files st in
  alertMessage st' = alertMessage st /\ alertType st' = alertType st /\
  timers st' = timers st /\ now st' = now st.
Proof.
  intros Hall. unfold addFiles.
  assert (Hlen : length (List.filter isValidFile files) = length files).
  { apply filter_length_eq, List.Forall_forall.
    now apply forallb_forall. }
  rewrite Hlen, Nat.eqb_refl. simpl.
  destruct (push_all_frame (List.filter isValidFile files) st)
    as (_ & _ & Hm & Ht & _ & Hn & Hti & _).
  auto.
Qed.

(** An action that raises no alert and is not the passing of time leaves
    the alert, the pending timers and the clock alone. *)
Lemma quiet_exec (a : Action) (st st' : State) :
  mayAlert a = false -> (forall t, a <> Elapse t) ->
  exec a st = Some st' ->
  alertMessage st' = alertMessage st /\ alertType st' = alertType st /\
  timers st' = timers st /\ now st' = now st.
Proof.
  intros Hq Hne Hex. destruct a; simpl in Hq, Hex; try discriminate.
  - injection Hex as <-. now repeat split.
  - injection Hex as <-. now repeat split.
  - injection Hex as <-. destruct files as [files|]; [|now repeat split].
    apply negb_false_iff in Hq.
    apply (addFiles_quiet files (set_isDragOver false st) Hq).
  - injection Hex as <-. destruct files as [files|]; [|now repeat split].
    apply negb_false_iff in Hq. apply (addFiles_quiet files st Hq).
  - injection Hex as <-. apply negb_false_iff in Hq.
    apply (addFiles_quiet files _ Hq).
  - injection Hex as <-. apply uploadFile_alert.
  - injection Hex as <-. apply uploadEach_alert.
  - injection Hex as <-. now repeat split.
  - open_request Hex. unfold onNext.
    destruct event; try discriminate; simpl;
      destruct (heap st !! target rq); now repeat split.
  - exfalso. now apply (Hne t).
Qed.

(** C5, as the code has it.  An alert set at time T is cleared (message
    and kind empty) once the clock has reached T + 5000, provided no
    action since has raised another alert.  That bounds how long any
    alert shows, a superseding one included; it does not promise the
    superseding alert its full 5000 ms, because the timer of the alert
    it replaced is still pending. *)
Theorem alert_cleared_by_deadline
    (st : State) (message : string) (type : AlertKind)
    (trace : list Action) (st' : State)
    (Hrun : run trace (showAlert message type st) = Some st')
    (Hquiet : forallb (fun a => negb (mayAlert a)) trace = true)
    (Hlate : now st + 5000 <= now st') :
  alertMessage st' = "" /\ alertType st' = "".
Proof.
  set (deadline := now st + 5000) in *.
  assert (Hinv : forall tr s s',
    run tr s = Some s' ->
    forallb (fun a => negb (mayAlert a)) tr = true ->
    (In deadline (timers s) /\ now s < deadline) \/
    (alertMessage s = "" /\ alertType s = "" /\ deadline <= now s) ->
    (In deadline (timers s') /\ now s' < deadline) \/
    (alertMessage s' = "" /\ alertType s' = "" /\ deadline <= now s')).
  { induction tr as [|a tr IH]; intros s s' Hr Hq Hs; simpl in Hr.
    - now injection Hr as <-.
    - destruct (exec a s) as [s1|] eqn:Hex; [|discriminate].
      simpl in Hq. apply andb_true_iff in Hq. destruct Hq as [Ha Hq].
      apply negb_true_iff in Ha.
      apply (IH s1 s' Hr Hq). clear IH Hr Hq.
      destruct (match a with Elapse t => Some t | _ => None end) as [t|] eqn:Ea.
      + destruct a; try discriminate. injection Ea as ->.
        simpl in Hex. destruct (Z.leb_spec (now s) t) as [Hle|]; [|discriminate].
        injection Hex as <-. rewrite elapse_now, elapse_timers.
        destruct Hs as [[Hin Hlt] | (Hm & Ht & Hge)].
        * destruct (Z.lt_ge_cases t deadline) as [Htd|Htd].
          -- left. split; [|exact Htd]. apply filter_In.
             split; [exact Hin | now apply Z.ltb_lt].
          -- right. destruct (elapse_due t deadline s Hin Htd) as [-> ->].
             repeat split. exact Htd.
        * right. destruct (elapse_empty t s Hm Ht) as [-> ->].
          repeat split. lia.
      + assert (Hne : forall t, a <> Elapse t) by (intros t ->; discriminate).
        destruct (quiet_exec a s s1 Ha Hne Hex) as (-> & -> & -> & ->).
        exact Hs. }
  destruct (Hinv trace _ st' Hrun Hquiet) as [[_ Hlt] | (Hm & Ht & _)].
  - left. simpl. split; [|subst deadline; unfold alertDelay; lia].
    apply in_or_app. right. left. reflexivity.
  - lia.
  - now split.
Qed.

Lemma alert_cleared_by_deadline_witness :
  let st := initial "" in
  let trace := [Elapse 1500; AddFiles [ {| name := "a.xml"; size := 10 |} ];
                UploadFile 0; Elapse 5000] in
  exists st',
    run trace (showAlert "saved" alert_info st) = Some st' /\
    forallb (fun a => negb (mayAlert a)) trace = true /\
    now st + 5000 <= now st' /\
    alertMessage st' = "" /\ alertType st' = "".
Proof.
  intros st trace. eexists. split; [vm_compute; reflexivity|].
  split; [vm_compute; reflexivity|]. split; [vm_compute; discriminate|].
  apply (alert_cleared_by_deadline st "saved" alert_info trace).
  - vm_compute. reflexivity.
  - vm_compute. reflexivity.
  - vm_compute. discriminate.
Defined.

(** The timer of an earlier alert is still pending when a later alert is
    raised, and clears it: raised at 3000, the second alert is gone at
    5000 instead of staying until 8000. *)
Lemma superseding_alert_cleared_early :
  let a := {| name := "a.xml"; size := 10 |} in
  let b := {| name := "b.exe"; size := 10 |} in
  let trace := [AddFiles [a; b]; UploadFile 0; Elapse 3000; HttpNext 0 Response] in
  exists st1 st2,
    run trace (initial "") = Some st1 /\
    now st1 = 3000 /\
    alertMessage st1 = "File a.xml uploaded successfully!" /\
    alertType st1 = "alert-success" /\
    timers st1 = [5000; 8000] /\
    run [Elapse 5000] st1 = Some st2 /\
    now st2 = 5000 /\ now st2 < now st1 + 5000 /\
    alertMessage st2 = "" /\ alertType st2 = "".
Proof.
  intros a b trace. eexists _, _.
  split; [vm_compute; reflexivity|].
  repeat (split; [vm_compute; reflexivity|]).
  vm_compute. reflexivity.
Qed.

(** ** Removal and late callbacks *)

Lemma grows_same (st st' : State) :
  length (heap st') = length (heap st) ->
  uploadedFiles st' = uploadedFiles st -> grows st st'.
Proof. intros Hh Hq. split; [lia|]. rewrite Hq. auto. Qed.

Lemma grows_trans (st1 st2 st3 : State) :
  grows st1 st2 -> grows st2 st3 -> grows st1 st3.
Proof.
  intros [H1 Hq1] [H2 Hq2]. split; [lia|].
  intros r Hr. destruct (Hq2 r Hr) as [Hin|Hge].
  - now apply Hq1.
  - right. lia.
Qed.

Lemma detached_grows (r : ref) (st st' : State) :
  detached r st -> grows st st' -> detached r st'.
Proof.
  intros [Hlt Hnotin] [Hlen Hq]. split; [lia|].
  intros Hin. destruct (Hq r Hin) as [H|H]; [contradiction | lia].
Qed.

Lemma grows_addFiles (files : list File) (st : State) :
  grows st (addFiles files st).
Proof.
  destruct (addFiles_shape files st) as (Hh & Hq).
  split.
  - rewrite Hh, length_app. lia.
  - intros r Hr. rewrite Hq in Hr. apply elem_of_app in Hr.
    destruct Hr as [Hr|Hr]; [now left|]. right.
    apply list_elem_of_In, in_seq in Hr. lia.
Qed.

Lemma uploadFile_shape (index : Z) (st : State) :
  let st' := state_of (uploadFile index st) in
  length (heap st') = length (heap st) /\ uploadedFiles st' = uploadedFiles st.
Proof.
  unfold uploadFile.
  destruct (array_get (uploadedFiles st) index) as [r|]; [|now split].
  destruct (heap st !! r) as [fileItem|]; [|now split].
  destruct (Status_eqb (status fileItem) uploading); [now split|].
  simpl. now rewrite length_insert.
Qed.

Lemma uploadEach_shape (pendingFiles : list ref) : forall st,
  let st' := state_of (uploadEach pendingFiles st) in
  length (heap st') = length (heap st) /\ uploadedFiles st' = uploadedFiles st.
Proof.
  induction pendingFiles as [|p rest IH]; intros st; simpl; [now split|].
  pose proof (uploadFile_shape (findIndex (Nat.eqb p) (uploadedFiles st)) st) as H.
  destruct (uploadFile _ st) as [st1|st1]; simpl in H; [|exact H].
  destruct (IH st1) as [-> ->]. exact H.
Qed.

(** What a [next] callback can touch: its own record, nothing of the
    queue and no other record. *)
Lemma onNext_frame (r : ref) (event : HttpEvent) (st : State) (f : UploadedFile) :
  heap st !! r = Some f ->
  exists st',
    onNext r event st = Ok st' /\
    uploadedFiles st' = uploadedFiles st /\
    length (heap st') = length (heap st) /\
    forall r', r' <> r -> heap st' !! r' = heap st !! r'.
Proof.
  intros Hf. unfold onNext. rewrite Hf.
  destruct event; eexists; (split; [reflexivity|]); simpl;
    rewrite ?length_insert; repeat split;
    intros r' Hne; apply list_lookup_insert_ne; congruence.
Qed.

Lemma onError_frame (r : ref) (message : option string) (st : State)
    (f : UploadedFile) :
  heap st !! r = Some f ->
  exists st',
    onError r message st = Ok st' /\
    uploadedFiles st' = uploadedFiles st /\
    length (heap st') = length (heap st) /\
    forall r', r' <> r -> heap st' !! r' = heap st !! r'.
Proof.
  intros Hf. unfold onError. rewrite Hf.
  eexists. split; [reflexivity|]. simpl. rewrite length_insert.
  repeat split. intros r' Hne. apply list_lookup_insert_ne. congruence.
Qed.

Lemma onNext_shape (r : ref) (event : HttpEvent) (st : State) :
  let st' := state_of (onNext r event st) in
  length (heap st') = length (heap st) /\ uploadedFiles st' = uploadedFiles st.
Proof.
  destruct (heap st !! r) as [f|] eqn:Hf.
  - destruct (onNext_frame r event st f Hf) as (st' & -> & Hq & Hl & _).
    now split.
  - unfold onNext. rewrite Hf. now split.
Qed.

Lemma onError_shape (r : ref) (message : option string) (st : State) :
  let st' := state_of (onError r message st) in
  length (heap st') = length (heap st) /\ uploadedFiles st' = uploadedFiles st.
Proof.
  destruct (heap st !! r) as [f|] eqn:Hf.
  - destruct (onError_frame r message st f Hf) as (st' & -> & Hq & Hl & _).
    now split.
  - unfold onError. rewrite Hf. now split.
Qed.

Lemma clear_all_shape (due : list Z) : forall st,
  let st' := fold_left (fun s _ => clearAlert s) due st in
  heap st' = heap st /\ uploadedFiles st' = uploadedFiles st.
Proof.
  induction due as [|d due IH]; intros st; simpl; [now split|].
  apply (IH (clearAlert st)).
Qed.

Lemma grows_exec (a : Action) (st st' : State) :
  exec a st = Some st' -> grows st st'.
Proof.
  intros Hex. destruct a; simpl in Hex.
  - injection Hex as <-. now apply grows_same.
  - injection Hex as <-. now apply grows_same.
  - injection Hex as <-. unfold onDrop. destruct files as [files|].
    + apply (grows_addFiles files (set_isDragOver false st)).
    + now apply grows_same.
  - injection Hex as <-. unfold onFileSelected. destruct files as [files|].
    + apply grows_addFiles.
    + now apply grows_same.
  - injection Hex as <-. apply grows_addFiles.
  - injection Hex as <-. apply grows_same; apply uploadFile_shape.
  - injection Hex as <-. apply grows_same; apply uploadEach_shape.
  - injection Hex as <-. split; [simpl; lia|].
    intros r Hr. left. simpl in Hr.
    eapply elem_of_sublist; [exact Hr | apply splice1_sublist].
  - open_request Hex.
    match goal with |- grows st (state_of (onNext ?r ?e ?s)) =>
      destruct (onNext_shape r e s) as [Hl Hq];
      assert (Hs : heap s = heap st /\ uploadedFiles s = uploadedFiles st)
        by (destruct (isResponse e); [split; [apply retire_heap | apply retire_queue] | now split])
    end.
    destruct Hs as [Hsh Hsq]. apply grows_same; congruence.
  - open_request Hex.
    destruct (onError_shape (target rq) message (retire id st)) as [Hl Hq].
    apply grows_same.
    + now rewrite Hl, retire_heap.
    + now rewrite Hq, retire_queue.
  - destruct (now st <=? t); [|discriminate]. injection Hex as <-.
    destruct (clear_all_shape (List.filter (fun d => d <=? t) (timers st)) st)
      as [Hh Hq].
    apply grows_same; unfold elapse; cbn [heap uploadedFiles set_now set_timers];
      [now rewrite Hh | exact Hq].
  - injection Hex as <-. now apply grows_same.
Qed.

Lemma grows_run (trace : list Action) : forall st st',
  run trace st = Some st' -> grows st st'.
Proof.
  induction trace as [|a trace IH]; intros st st' Hrun; simpl in Hrun.
  - injection Hrun as <-. now apply grows_same.
  - destruct (exec a st) as [st1|] eqn:Hex; [|discriminate].
    apply (grows_trans st st1 st'); [now apply (grows_exec a) | now apply IH].
Qed.

Lemma NoDup_delete_lookup {A} (l : list A) (i : nat) (x : A) :
  NoDup l -> l !! i = Some x -> x ∉ delete i l.
Proof.
  intros Hnd Hi Hin.
  apply list_elem_of_lookup in Hin. destruct Hin as [j Hj].
  destruct (decide (j < i)%nat) as [Hlt|Hge].
  - rewrite list_lookup_delete_lt in Hj by exact Hlt.
    pose proof (NoDup_lookup l i j x Hnd Hi Hj). lia.
  - rewrite list_lookup_delete_ge in Hj by lia.
    pose proof (NoDup_lookup l i (S j) x Hnd Hi Hj). lia.
Qed.

(** C7. [removeFile] at an index in bounds takes the record there out of
    the queue whatever its status.  From then on, whatever else happens,
    a [next] or [error] callback that fires for the removed record
    returns normally and leaves the queue, and every record still in it,
    as they were. *)
Theorem removeFile_detaches
    (backend : string) (trace1 : list Action) (st : State)
    (index : Z) (r : ref) (trace2 : list Action) (st2 : State)
    (Hrun : run trace1 (initial backend) = Some st)
    (Hindex : array_get (uploadedFiles st) index = Some r)
    (Hlater : run trace2 (removeFile index st) = Some st2) :
  (uploadedFiles (removeFile index st)
    = delete (Z.to_nat index) (uploadedFiles st)) /\
  (r ∉ uploadedFiles (removeFile index st)) /\
  (forall event, exists st3,
     onNext r event st2 = Ok st3 /\
     uploadedFiles st3 = uploadedFiles st2 /\
     forall r', r' ∈ uploadedFiles st2 -> heap st3 !! r' = heap st2 !! r') /\
  (forall message, exists st3,
     onError r message st2 = Ok st3 /\
     uploadedFiles st3 = uploadedFiles st2 /\
     forall r', r' ∈ uploadedFiles st2 -> heap st3 !! r' = heap st2 !! r').
Proof.
  pose proof (wf_reachable backend trace1 st Hrun) as Hwf.
  apply array_get_Some in Hindex. destruct Hindex as [Hin Hr].
  assert (Hq : uploadedFiles (removeFile index st)
               = delete (Z.to_nat index) (uploadedFiles st))
    by (simpl; now apply splice1_in_bounds).
  assert (Hgone : r ∉ uploadedFiles (removeFile index st)).
  { rewrite Hq. apply NoDup_delete_lookup; [apply (wf_nodup st Hwf) | exact Hr]. }
  assert (Hdet : detached r st2).
  { apply (detached_grows r (removeFile index st)); [|now apply (grows_run trace2)].
    split; [|exact Hgone]. simpl. apply (wf_alloc st Hwf).
    eapply list_elem_of_lookup_2; exact Hr. }
  destruct Hdet as [Hlt Hnotin].
  destruct (lookup_lt_is_Some_2 (heap st2) r Hlt) as [f Hf].
  split; [exact Hq|]. split; [exact Hgone|]. split.
  - intros event.
    destruct (onNext_frame r event st2 f Hf) as (st3 & Hok & Hsame & _ & Hothers).
    exists st3. split; [exact Hok|]. split; [exact Hsame|].
    intros r' Hr'. apply Hothers. intros ->. contradiction.
  - intros message.
    destruct (onError_frame r message st2 f Hf) as (st3 & Hok & Hsame & _ & Hothers).
    exists st3. split; [exact Hok|]. split; [exact Hsame|].
    intros r' Hr'. apply Hothers. intros ->. contradiction.
Qed.

Lemma removeFile_detaches_witness :
  let a := {| name := "a.xml"; size := 10 |} in
  let b := {| name := "b.dat"; size := 20 |} in
  let c := {| name := "c.nrs"; size := 30 |} in
  let trace1 := [AddFiles [a; b]; UploadAllFiles] in
  let trace2 := [HttpNext 1 (UploadProgress 5 (Some 20)); AddFiles [c]] in
  exists st st2,
    run trace1 (initial "") = Some st /\
    array_get (uploadedFiles st) 0 = Some 0%nat /\
    run trace2 (removeFile 0 st) = Some st2 /\
    (uploadedFiles (removeFile 0 st)
      = delete (Z.to_nat 0) (uploadedFiles st)) /\
    (0%nat ∉ uploadedFiles (removeFile 0 st)) /\
    (forall event, exists st3,
       onNext 0%nat event st2 = Ok st3 /\
       uploadedFiles st3 = uploadedFiles st2 /\
       forall r', r' ∈ uploadedFiles st2 -> heap st3 !! r' = heap st2 !! r') /\
    (forall message, exists st3,
       onError 0%nat message st2 = Ok st3 /\
       uploadedFiles st3 = uploadedFiles st2 /\
       forall r', r' ∈ uploadedFiles st2 -> heap st3 !! r' = heap st2 !! r').
Proof.
  intros a b c trace1 trace2. eexists _, _.
  split; [vm_compute; reflexivity|].
  split; [vm_compute; reflexivity|].
  split; [vm_compute; reflexivity|].
  apply (removeFile_detaches "" trace1 _ 0 0%nat trace2).
  - vm_compute. reflexivity.
  - vm_compute. reflexivity.
  - vm_compute. reflexivity.
Defined.

(** ** uploadAllFiles *)

Lemma findIndex_found (p : ref) (q : list ref) :
  p ∈ q -> array_get q (findIndex (Nat.eqb p) q) = Some p.
Proof.
  induction q as [|x q IH]; intros Hin; [inversion Hin|].
  simpl. destruct (Nat.eqb_spec p x) as [->|Hne]; [reflexivity|].
  apply elem_of_cons in Hin. destruct Hin as [Heq|Hin]; [contradiction|].
  specialize (IH Hin). apply array_get_Some in IH. destruct IH as [Hk Hp].
  destruct (Z.ltb_spec (findIndex (Nat.eqb p) q) 0) as [|_]; [lia|].
  apply array_get_Some. split; [simpl length; lia|].
  replace (Z.to_nat (findIndex (Nat.eqb p) q + 1))
    with (S (Z.to_nat (findIndex (Nat.eqb p) q))) by lia.
  exact Hp.
Qed.

(** The first call of [uploadFile] on a record that is not uploading. *)
Lemma uploadFile_start (st : State) (index : Z) (r : ref) (f : UploadedFile) :
  array_get (uploadedFiles st) index = Some r ->
  heap st !! r = Some f -> status f <> uploading ->
  exists st1 rq,
    uploadFile index st = Ok st1 /\
    heap st1 = <[r := with_status uploading f]> (heap st) /\
    uploadedFiles st1 = uploadedFiles st /\
    requests st1 = requests st ++ [rq] /\
    target rq = r /\ live rq = true.
Proof.
  intros Hindex Hf Hne. unfold uploadFile. rewrite Hindex, Hf.
  destruct (Status_eqb (status f) uploading) eqn:E;
    [apply Status_eqb_eq in E; contradiction|].
  eexists _, _. split; [reflexivity|]. simpl. repeat split.
Qed.

Lemma statusIs_true (s : Status) (st : State) (r : ref) :
  statusIs s st r = true <-> exists f, heap st !! r = Some f /\ status f = s.
Proof.
  unfold statusIs. destruct (heap st !! r) as [f|].
  - rewrite Status_eqb_eq. split; [eauto|]. now intros [g [[= <-] H]].
  - split; [discriminate|]. now intros [g [H _]].
Qed.

Lemma NoDup_List_filter {A} (p : A -> bool) (l : list A) :
  NoDup l -> NoDup (List.filter p l).
Proof.
  induction 1 as [|x l Hx Hnd IH]; simpl; [constructor|].
  destruct (p x); [|exact IH]. constructor; [|exact IH].
  intros Hin. apply Hx. apply list_elem_of_In in Hin. apply filter_In in Hin.
  apply list_elem_of_In. tauto.
Qed.

Lemma uploadEach_spec (pendingFiles : list ref) : forall st,
  NoDup pendingFiles ->
  (forall p, p ∈ pendingFiles ->
             p ∈ uploadedFiles st /\ statusIs pending st p = true) ->
  exists st' rqs,
    uploadEach pendingFiles st = Ok st' /\
    uploadedFiles st' = uploadedFiles st /\
    requests st' = requests st ++ rqs /\
    map target rqs = pendingFiles /\
    (forall r, r ∈ pendingFiles ->
       exists f, heap st !! r = Some f /\
                 heap st' !! r = Some (with_status uploading f)) /\
    (forall r, r ∉ pendingFiles -> heap st' !! r = heap st !! r).
Proof.
  induction pendingFiles as [|p rest IH]; intros st Hnd Hall.
  - exists st, []. simpl. rewrite app_nil_r.
    split; [reflexivity|]. split; [reflexivity|]. split; [reflexivity|].
    split; [reflexivity|]. split; [|reflexivity].
    intros r Hr. inversion Hr.
  - apply NoDup_cons in Hnd. destruct Hnd as [Hp Hnd].
    destruct (Hall p) as [Hin Hpend]; [now left|].
    apply statusIs_true in Hpend. destruct Hpend as [f [Hf Hs]].
    destruct (uploadFile_start st _ p f (findIndex_found p _ Hin) Hf)
      as (st1 & rq & Hup & Hh1 & Hq1 & Hr1 & Ht & _); [congruence|].
    assert (Hother : forall r, r <> p -> heap st1 !! r = heap st !! r).
    { intros r Hne. rewrite Hh1. apply list_lookup_insert_ne. congruence. }
    destruct (IH st1 Hnd) as (st' & rqs & Hrun & Hq & Hr & Hmap & Hin' & Hout').
    { intros p' Hp'. destruct (Hall p') as [Hin1 Hpend1]; [now right|].
      rewrite Hq1. split; [exact Hin1|].
      unfold statusIs in *. rewrite Hother; [exact Hpend1|].
      intros ->. contradiction. }
    exists st', (rq :: rqs). simpl. rewrite Hup.
    split; [exact Hrun|]. split; [congruence|].
    split; [rewrite Hr, Hr1, <- app_assoc; reflexivity|].
    split; [simpl; congruence|]. split.
    + intros r Hr'. apply elem_of_cons in Hr'. destruct Hr' as [->|Hr'].
      * exists f. split; [exact Hf|]. rewrite (Hout' p Hp), Hh1.
        apply list_lookup_insert_eq. eapply lookup_lt_Some; eassumption.
      * destruct (Hin' r Hr') as [g [Hg Hg']]. exists g.
        split; [|exact Hg']. rewrite <- Hother; [exact Hg|].
        intros ->. contradiction.
    + intros r Hr'. apply not_elem_of_cons in Hr'. destruct Hr' as [Hne Hr'].
      rewrite (Hout' r Hr'). now apply Hother.
Qed.

(** C9. [uploadAllFiles] takes the records of the queue that are pending
    when it is called and calls [uploadFile] once for each, at the index
    the record has in the queue: each of them, and no other record, goes
    to uploading, and the requests issued are one per such record, in
    queue order.  The queue itself is not changed. *)
Theorem uploadAllFiles_spec
    (backend : string) (trace : list Action) (st : State)
    (Hrun : run trace (initial backend) = Some st) :
  let snapshot := List.filter (statusIs pending st) (uploadedFiles st) in
  exists st' rqs,
    uploadAllFiles st = Ok st' /\
    uploadedFiles st' = uploadedFiles st /\
    requests st' = requests st ++ rqs /\
    map target rqs = snapshot /\
    (forall p, p ∈ snapshot ->
       array_get (uploadedFiles st)
                 (findIndex (Nat.eqb p) (uploadedFiles st)) = Some p) /\
    (forall r, r ∈ snapshot ->
       exists f, heap st !! r = Some f /\ status f = pending /\
                 heap st' !! r = Some (with_status uploading f)) /\
    (forall r, r ∉ snapshot -> heap st' !! r = heap st !! r).
Proof.
  intros snapshot.
  pose proof (wf_reachable backend trace st Hrun) as Hwf.
  assert (Hsnap : forall p, p ∈ snapshot ->
            p ∈ uploadedFiles st /\ statusIs pending st p = true).
  { intros p Hp. apply list_elem_of_In, filter_In in Hp.
    destruct Hp as [Hin Hpend]. split; [now apply list_elem_of_In | exact Hpend]. }
  destruct (uploadEach_spec snapshot st) as (st' & rqs & Hup & Hq & Hr & Hmap & Hin & Hout).
  { apply NoDup_List_filter, (wf_nodup st Hwf). }
  { exact Hsnap. }
  exists st', rqs. split; [exact Hup|]. split; [exact Hq|].
  split; [exact Hr|]. split; [exact Hmap|]. split; [|split].
  - intros p Hp. apply findIndex_found. now apply Hsnap.
  - intros r Hr'. destruct (Hin r Hr') as [f [Hf Hf']].
    exists f. split; [exact Hf|]. split; [|exact Hf'].
    destruct (Hsnap r Hr') as [_ Hpend]. apply statusIs_true in Hpend.
    destruct Hpend as [g [Hg Hs]]. congruence.
  - exact Hout.
Qed.

Lemma uploadAllFiles_spec_witness :
  let a := {| name := "a.xml"; size := 10 |} in
  let b := {| name := "b.dat"; size := 20 |} in
  let c := {| name := "c.nrs"; size := 30 |} in
  let trace := [AddFiles [a; b; c]; UploadFile 1; HttpNext 0 Response] in
  exists st,
    run trace (initial "") = Some st /\
    List.filter (statusIs pending st) (uploadedFiles st) = [0%nat; 2%nat] /\
    exists st' rqs,
      uploadAllFiles st = Ok st' /\
      uploadedFiles st' = uploadedFiles st /\
      requests st' = requests st ++ rqs /\
      map target rqs = List.filter (statusIs pending st) (uploadedFiles st) /\
      (forall p, p ∈ List.filter (statusIs pending st) (uploadedFiles st) ->
         array_get (uploadedFiles st)
                   (findIndex (Nat.eqb p) (uploadedFiles st)) = Some p) /\
      (forall r, r ∈ List.filter (statusIs pending st) (uploadedFiles st) ->
         exists f, heap st !! r = Some f /\ status f = pending /\
                   heap st' !! r = Some (with_status uploading f)) /\
      (forall r, r ∉ List.filter (statusIs pending st) (uploadedFiles st) ->
         heap st' !! r = heap st !! r).
Proof.
  intros a b c trace. eexists.
  split; [vm_compute; reflexivity|].
  split; [vm_compute; reflexivity|].
  apply (uploadAllFiles_spec "" trace). vm_compute. reflexivity.
Defined.

(** * Further properties *)

(** ** Invariants along a run *)

Lemma run_invariant (P : State -> Prop) :
  (forall a st st', wf st -> P st -> exec a st = Some st' -> P st') ->
  forall trace st st', wf st -> P st -> run trace st = Some st' -> P st'.
Proof.
  intros Hstep. induction trace as [|a trace IH]; intros st st' Hwf HP Hrun;
    simpl in Hrun.
  - now injection Hrun as <-.
  - destruct (exec a st) as [st1|] eqn:Hex; [|discriminate].
    apply (IH st1); [now apply (wf_exec a st) | now apply (Hstep a st) | exact Hrun].
Qed.

Lemma uploadEach_invariant (P : State -> Prop) :
  (forall index st, P st -> P (state_of (uploadFile index st))) ->
  forall pendingFiles st, P st -> P (state_of (uploadEach pendingFiles st)).
Proof.
  intros Hstep. induction pendingFiles as [|p rest IH]; intros st HP; simpl;
    [exact HP|].
  pose proof (Hstep (findIndex (Nat.eqb p) (uploadedFiles st)) st HP) as H.
  destruct (uploadFile _ st) as [st1|st1]; simpl in H; [now apply IH | exact H].
Qed.

(** [uploadFile] either changes nothing or starts the upload of the
    record at [index]. *)
Lemma uploadFile_cases (index : Z) (st : State) :
  state_of (uploadFile index st) = st \/
  exists r f,
    array_get (uploadedFiles st) index = Some r /\
    heap st !! r = Some f /\ status f <> uploading /\
    uploadFile index st =
      Ok (set_requests
            (requests st ++
               [ {| target := r; url := backendUrl st;
                    formData := [("file", FormFile (file f));
                                 ("type", FormString "neural-data")];
                    live := true |} ])
            (set_isUploading true
               (set_heap (<[r := with_status uploading f]> (heap st)) st))).
Proof.
  unfold uploadFile.
  destruct (array_get (uploadedFiles st) index) as [r|]; [|now left].
  destruct (heap st !! r) as [f|] eqn:Hf; [|now left].
  destruct (Status_eqb (status f) uploading) eqn:E; [now left|].
  right. exists r, f. split; [reflexivity|]. split; [exact Hf|].
  split; [|reflexivity].
  intros Hs. apply Status_eqb_eq in Hs. congruence.
Qed.

(** What an event or a failure of an open request does in a well-formed
    state. *)
Lemma exec_next_cases (st : State) (id : nat) (rq : Request) (event : HttpEvent) :
  wf st -> requests st !! id = Some rq -> live rq = true ->
  exists f,
    heap st !! target rq = Some f /\ status f = uploading /\
    exec (HttpNext id event) st = Some
      match event with
      | UploadProgress loaded total =>
          set_heap (<[target rq := with_progress (progressOf loaded total) f]>
                      (heap st)) st
      | Response =>
          showAlert ("File " ++ name (file f) ++ " uploaded successfully!")
            alert_success
            (set_isUploading false
               (set_heap (<[target rq := with_progress 100 (with_status success f)]>
                            (heap (retire id st))) (retire id st)))
      | _ => st
      end.
Proof.
  intros Hwf Hid Hlive.
  destruct (wf_live st Hwf id rq Hid Hlive) as [f [Hf Hs]].
  exists f. split; [exact Hf|]. split; [exact Hs|].
  unfold exec. rewrite Hid, Hlive. unfold onNext.
  destruct event; cbn [isResponse]; rewrite ?retire_heap, Hf; reflexivity.
Qed.

Lemma exec_error_cases (st : State) (id : nat) (rq : Request)
    (message : option string) :
  wf st -> requests st !! id = Some rq -> live rq = true ->
  exists f,
    heap st !! target rq = Some f /\ status f = uploading /\
    exec (HttpError id message) st = Some
      (showAlert ("Failed to upload " ++ name (file f) ++ ": "
                    ++ message_or_default message)
         alert_error
         (set_isUploading false
            (set_heap (<[target rq := with_error (message_or_default message)
                                        (with_status failed f)]>
                         (heap (retire id st))) (retire id st)))).
Proof.
  intros Hwf Hid Hlive.
  destruct (wf_live st Hwf id rq Hid Hlive) as [f [Hf Hs]].
  exists f. split; [exact Hf|]. split; [exact Hs|].
  unfold exec. rewrite Hid, Hlive. unfold onError.
  rewrite ?retire_heap, Hf. reflexivity.
Qed.

Lemma message_or_default_nonempty (message : option string) :
  message_or_default message <> "".
Proof.
  unfold message_or_default. destruct message as [m|]; [|discriminate].
  destruct (String.eqb_spec m ""); [discriminate | assumption].
Qed.

Lemma elapse_heap (t : Z) (st : State) : heap (elapse t st) = heap st.
Proof.
  unfold elapse. cbn [heap set_now set_timers].
  apply (clear_all_shape (List.filter (fun d => d <=? t) (timers st)) st).
Qed.

(** ** Records step by step *)

Lemma transition_heap_same (st st' : State) (r : ref) (f : UploadedFile) :
  heap st' = heap st -> heap st !! r = Some f ->
  exists f', heap st' !! r = Some f' /\ transition f f'.
Proof. intros -> Hf. exists f. split; [exact Hf | now left]. Qed.

Lemma transition_store (h : list UploadedFile) (r0 : ref) (old new : UploadedFile)
    (r : ref) (f : UploadedFile) :
  h !! r0 = Some old -> transition old new -> h !! r = Some f ->
  exists f', <[r0 := new]> h !! r = Some f' /\ transition f f'.
Proof.
  intros Hold Htr Hf. destruct (decide (r = r0)) as [->|Hne].
  - exists new. rewrite list_lookup_insert_eq by (eapply lookup_lt_Some; eassumption).
    split; [reflexivity|]. congruence.
  - exists f. rewrite list_lookup_insert_ne by congruence.
    split; [exact Hf | now left].
Qed.

Lemma uploadFile_records (index : Z) (st : State) (r : ref) (f : UploadedFile) :
  heap st !! r = Some f ->
  exists f', heap (state_of (uploadFile index st)) !! r = Some f' /\
             (f' = f \/ (status f <> uploading /\ f' = with_status uploading f)).
Proof.
  intros Hf. destruct (uploadFile_cases index st) as [->|(r0 & f0 & _ & Hf0 & Hs & ->)].
  - exists f. split; [exact Hf | now left].
  - simpl. destruct (decide (r = r0)) as [->|Hne].
    + rewrite list_lookup_insert_eq by (eapply lookup_lt_Some; eassumption).
      exists (with_status uploading f0). split; [reflexivity|].
      right. split; congruence.
    + rewrite list_lookup_insert_ne by congruence.
      exists f. split; [exact Hf | now left].
Qed.

Lemma uploadEach_records (pendingFiles : list ref) (st : State)
    (r : ref) (f : UploadedFile) :
  heap st !! r = Some f ->
  exists f', heap (state_of (uploadEach pendingFiles st)) !! r = Some f' /\
             (f' = f \/ (status f <> uploading /\ f' = with_status uploading f)).
Proof.
  intros Hf.
  apply (uploadEach_invariant
           (fun s => exists f', heap s !! r = Some f' /\
              (f' = f \/ (status f <> uploading /\ f' = with_status uploading f)))).
  - intros index s (f1 & Hf1 & Hcase).
    destruct (uploadFile_records index s r f1 Hf1) as (f2 & Hf2 & Hcase2).
    exists f2. split; [exact Hf2|].
    destruct Hcase2 as [->|[Hs2 ->]]; [exact Hcase|].
    destruct Hcase as [->|[_ ->]]; [now right|].
    exfalso. now apply Hs2.
  - exists f. split; [exact Hf | now left].
Qed.

Lemma addFiles_heap_old (files : list File) (st : State) (r : ref) (f : UploadedFile) :
  heap st !! r = Some f -> heap (addFiles files st) !! r = Some f.
Proof.
  intros Hf. destruct (addFiles_shape files st) as [-> _].
  now apply lookup_app_l_Some.
Qed.

Lemma addFiles_heap_new (files : list File) (st : State) (r : ref) (f' : UploadedFile) :
  heap st !! r = None -> heap (addFiles files st) !! r = Some f' ->
  exists a, f' = newItem a /\ isValidFile a = true.
Proof.
  intros Hnone Hf'. destruct (addFiles_shape files st) as [Hh _].
  rewrite Hh in Hf'. apply lookup_app_Some in Hf'.
  destruct Hf' as [Hf'|[_ Hf']].
  { unfold ref in *. rewrite Hnone in Hf'. discriminate. }
  apply list_elem_of_lookup_2, list_elem_of_In, in_map_iff in Hf'.
  destruct Hf' as (a & <- & Ha). apply filter_In in Ha.
  exists a. split; [reflexivity | apply Ha].
Qed.

(** One step takes every record that exists along one [transition]. *)
Lemma exec_records (a : Action) (st st' : State) (r : ref) (f : UploadedFile) :
  wf st -> exec a st = Some st' -> heap st !! r = Some f ->
  exists f', heap st' !! r = Some f' /\ transition f f'.
Proof.
  intros Hwf Hex Hf. destruct a; simpl in Hex.
  - injection Hex as <-. now apply (transition_heap_same st).
  - injection Hex as <-. now apply (transition_heap_same st).
  - injection Hex as <-. exists f. split; [|now left].
    unfold onDrop. destruct files as [files|]; [|exact Hf].
    now apply addFiles_heap_old.
  - injection Hex as <-. exists f. split; [|now left].
    unfold onFileSelected. destruct files as [files|]; [|exact Hf].
    now apply addFiles_heap_old.
  - injection Hex as <-. exists f. split; [|now left].
    now apply addFiles_heap_old.
  - injection Hex as <-.
    destruct (uploadFile_records index st r f Hf) as (f' & Hf' & Hcase).
    exists f'. split; [exact Hf'|].
    destruct Hcase as [->|[Hs ->]]; [now left | right; right; now left].
  - injection Hex as <-.
    destruct (uploadEach_records
                (List.filter (statusIs pending st) (uploadedFiles st)) st r f Hf)
      as (f' & Hf' & Hcase).
    exists f'. split; [exact Hf'|].
    destruct Hcase as [->|[Hs ->]]; [now left | right; right; now left].
  - injection Hex as <-. now apply (transition_heap_same st).
  - destruct (requests st !! id) as [rq|] eqn:Hid; [|discriminate].
    destruct (live rq) eqn:Hlive; [|discriminate].
    destruct (exec_next_cases st id rq event Hwf Hid Hlive) as (f0 & Hf0 & Hs0 & Heq).
    simpl in Heq. rewrite Hid, Hlive in Heq. rewrite Heq in Hex.
    injection Hex as <-. destruct event; try (now apply (transition_heap_same st)).
    + simpl. apply (transition_store (heap st) (target rq) f0); auto.
      right; left. eauto.
    + simpl. rewrite retire_heap.
      apply (transition_store (heap st) (target rq) f0); auto.
      right; right; right; left. now split.
  - destruct (requests st !! id) as [rq|] eqn:Hid; [|discriminate].
    destruct (live rq) eqn:Hlive; [|discriminate].
    destruct (exec_error_cases st id rq message Hwf Hid Hlive) as (f0 & Hf0 & Hs0 & Heq).
    simpl in Heq. rewrite Hid, Hlive in Heq. rewrite Heq in Hex.
    injection Hex as <-. simpl. rewrite retire_heap.
    apply (transition_store (heap st) (target rq) f0); auto.
    right; right; right; right. split; [exact Hs0|].
    exists (message_or_default message).
    split; [apply message_or_default_nonempty | reflexivity].
  - destruct (now st <=? t); [|discriminate]. injection Hex as <-.
    apply (transition_heap_same st); [apply elapse_heap | exact Hf].
  - injection Hex as <-. now apply (transition_heap_same st).
Qed.

(** A record that appears in a step is a fresh one made by [addFiles]
    for a file that passed [isValidFile]. *)
Lemma exec_new_records (a : Action) (st st' : State) (r : ref) (f' : UploadedFile) :
  exec a st = Some st' -> heap st !! r = None -> heap st' !! r = Some f' ->
  exists file, f' = newItem file /\ isValidFile file = true.
Proof.
  intros Hex Hnone Hf'.
  assert (Hsame : length (heap st') = length (heap st) -> False).
  { intros Hlen. apply lookup_ge_None in Hnone.
    apply lookup_lt_Some in Hf'. lia. }
  destruct a; simpl in Hex; try (injection Hex as <-).
  - exfalso. now apply Hsame.
  - exfalso. now apply Hsame.
  - unfold onDrop in Hf'. destruct files as [files|]; [|exfalso; now apply Hsame].
    now apply (addFiles_heap_new files (set_isDragOver false st) r).
  - unfold onFileSelected in Hf'.
    destruct files as [files|]; [|exfalso; now apply Hsame].
    now apply (addFiles_heap_new files st r).
  - now apply (addFiles_heap_new files st r).
  - exfalso. apply Hsame. apply uploadFile_shape.
  - exfalso. apply Hsame. apply uploadEach_shape.
  - exfalso. now apply Hsame.
  - open_request Hex. exfalso. apply Hsame.
    match goal with |- context [onNext ?r0 ?e ?s] =>
      destruct (onNext_shape r0 e s) as [Hl _]; rewrite Hl end.
    destruct (isResponse event); [now rewrite retire_heap | reflexivity].
  - open_request Hex. exfalso. apply Hsame.
    destruct (onError_shape (target rq) message (retire id st)) as [Hl _].
    now rewrite Hl, retire_heap.
  - destruct (now st <=? t); [|discriminate]. injection Hex as <-.
    exfalso. apply Hsame. now rewrite elapse_heap.
  - exfalso. now apply Hsame.
Qed.

Lemma transition_file (f f' : UploadedFile) :
  transition f f' -> file f' = file f.
Proof.
  intros [->|[[_ [p ->]]|[[_ ->]|[[_ ->]|[_ (e & _ & ->)]]]]]; reflexivity.
Qed.

Lemma transition_not_pending (f f' : UploadedFile) :
  transition f f' -> status f <> pending -> status f' <> pending.
Proof.
  intros [->|[[_ [p ->]]|[[_ ->]|[[_ ->]|[_ (e & _ & ->)]]]]] Hs;
    simpl; congruence.
Qed.



(** X2. Whatever happens after a state the component has reached, a
    record that exists keeps existing with the same file, and once it is
    no longer pending it is never pending again. *)
Theorem record_never_pending_again
    (backend : string) (trace1 : list Action) (st : State)
    (r : ref) (f : UploadedFile) (trace2 : list Action) (st' : State)
    (Hrun : run trace1 (initial backend) = Some st)
    (Hf : heap st !! r = Some f)
    (Hlater : run trace2 st = Some st') :
  exists f', heap st' !! r = Some f' /\ file f' = file f /\
             (status f <> pending -> status f' <> pending).
Proof.
  pose proof (wf_reachable backend trace1 st Hrun) as Hwf.
  apply (run_invariant
           (fun s => exists f', heap s !! r = Some f' /\ file f' = file f /\
                       (status f <> pending -> status f' <> pending))
           ) with (trace := trace2) (st := st); auto.
  - intros a s s' Hwfs (g & Hg & Hfile & Hstat) Hex.
    destruct (exec_records a s s' r g Hwfs Hex Hg) as (g' & Hg' & Htr).
    exists g'. split; [exact Hg'|]. split.
    + rewrite <- Hfile. now apply transition_file.
    + intros Hs. apply (transition_not_pending g g' Htr). now apply Hstat.
  - exists f. auto.
Qed.

Lemma record_never_pending_again_witness :
  let a := {| name := "a.xml"; size := 10 |} in
  let trace1 := [AddFiles [a]; UploadFile 0] in
  let trace2 := [HttpError 0 None; RemoveFile 0; UploadAllFiles;
                 AddFiles [a]; Elapse 7000] in
  exists st f st',
    run trace1 (initial "") = Some st /\
    heap st !! 0%nat = Some f /\
    run trace2 st = Some st' /\
    exists f', heap st' !! 0%nat = Some f' /\ file f' = file f /\
               (status f <> pending -> status f' <> pending).
Proof.
  intros a trace1 trace2. eexists _, _, _.
  split; [vm_compute; reflexivity|].
  split; [vm_compute; reflexivity|].
  split; [vm_compute; reflexivity|].
  eapply (record_never_pending_again "" trace1 _ 0%nat _ trace2).
  - vm_compute. reflexivity.
  - vm_compute. reflexivity.
  - vm_compute. reflexivity.
Defined.

(** A property of records that fresh records have and every transition
    keeps holds of every record of every reachable state. *)
Lemma record_invariant (Q : UploadedFile -> Prop) :
  (forall a, isValidFile a = true -> Q (newItem a)) ->
  (forall g g', transition g g' -> Q g -> Q g') ->
  forall backend trace st r f,
    run trace (initial backend) = Some st -> heap st !! r = Some f -> Q f.
Proof.
  intros Hnew Hstep backend trace st r f Hrun. revert r f.
  apply (run_invariant (fun s => forall r f, heap s !! r = Some f -> Q f))
    with (trace := trace) (st := initial backend);
    [| apply wf_initial | | exact Hrun].
  - intros a s s' Hwf HQ Hex r f Hf.
    destruct (heap s !! r) as [g|] eqn:Hg.
    + destruct (exec_records a s s' r g Hwf Hex Hg) as (g' & Hg' & Htr).
      unfold ref in *. rewrite Hf in Hg'. injection Hg' as <-.
      apply (Hstep g f Htr). now apply (HQ r).
    + destruct (exec_new_records a s s' r f Hex Hg Hf) as (file & -> & Hv).
      now apply Hnew.
  - intros r f Hf. simpl in Hf. now rewrite lookup_nil in Hf.
Qed.

(** X3. Every record the component ever holds, queued or removed, is of
    a file that passes [isValidFile]. *)
Theorem records_hold_valid_files
    (backend : string) (trace : list Action) (st : State)
    (r : ref) (f : UploadedFile)
    (Hrun : run trace (initial backend) = Some st)
    (Hf : heap st !! r = Some f) :
  isValidFile (file f) = true.
Proof.
  apply (record_invariant (fun g => isValidFile (file g) = true))
    with (backend := backend) (trace := trace) (st := st) (r := r);
    [ | | exact Hrun | exact Hf].
  - intros a Ha. exact Ha.
  - intros g g' Htr. now rewrite (transition_file g g' Htr).
Qed.

Lemma records_hold_valid_files_witness :
  let a := {| name := "a.xml"; size := 10 |} in
  let b := {| name := "b.exe"; size := 10 |} in
  let trace := [Drop (Some [b; a]); UploadAllFiles; RemoveFile 0] in
  exists st f,
    run trace (initial "") = Some st /\
    heap st !! 0%nat = Some f /\
    isValidFile (file f) = true.
Proof.
  intros a b trace. eexists _, _.
  split; [vm_compute; reflexivity|].
  split; [vm_compute; reflexivity|].
  eapply (records_hold_valid_files "" trace _ 0%nat); vm_compute; reflexivity.
Defined.

(** X4. In every reachable state a pending record is as [addFiles] made
    it: progress 0 and no error message. *)
Theorem pending_record_is_fresh
    (backend : string) (trace : list Action) (st : State)
    (r : ref) (f : UploadedFile)
    (Hrun : run trace (initial backend) = Some st)
    (Hf : heap st !! r = Some f)
    (Hpending : status f = pending) :
  progress f = 0 /\ error f = None.
Proof.
  revert Hpending.
  apply (record_invariant
           (fun g => status g = pending -> progress g = 0 /\ error g = None))
    with (backend := backend) (trace := trace) (st := st) (r := r);
    [ | | exact Hrun | exact Hf].
  - intros a _ _. split; reflexivity.
  - intros g g' [->|[[Hs [p ->]]|[[_ ->]|[[_ ->]|[_ (e & _ & ->)]]]]] HQ;
      simpl; try discriminate; [exact HQ | congruence].
Qed.

Lemma pending_record_is_fresh_witness :
  let a := {| name := "a.xml"; size := 10 |} in
  let b := {| name := "b.dat"; size := 20 |} in
  let trace := [AddFiles [a; b]; UploadFile 0;
                HttpNext 0 (UploadProgress 5 (Some 10)); HttpError 0 None] in
  exists st f,
    run trace (initial "") = Some st /\
    heap st !! 1%nat = Some f /\
    status f = pending /\
    progress f = 0 /\ error f = None.
Proof.
  intros a b trace. eexists _, _.
  split; [vm_compute; reflexivity|].
  split; [vm_compute; reflexivity|].
  split; [vm_compute; reflexivity|].
  eapply (pending_record_is_fresh "" trace _ 1%nat); vm_compute; reflexivity.
Defined.

(** X5. In every reachable state a record whose status is error carries
    an error message, and the message is not empty. *)
Theorem failed_record_has_message
    (backend : string) (trace : list Action) (st : State)
    (r : ref) (f : UploadedFile)
    (Hrun : run trace (initial backend) = Some st)
    (Hf : heap st !! r = Some f)
    (Hfailed : status f = failed) :
  exists e, error f = Some e /\ e <> "".
Proof.
  revert Hfailed.
  apply (record_invariant
           (fun g => status g = failed -> exists e, error g = Some e /\ e <> ""))
    with (backend := backend) (trace := trace) (st := st) (r := r);
    [ | | exact Hrun | exact Hf].
  - intros a _. discriminate.
  - intros g g' [->|[[Hs [p ->]]|[[_ ->]|[[_ ->]|[_ (e & He & ->)]]]]] HQ;
      simpl; try discriminate.
    + exact HQ.
    + congruence.
    + intros _. now exists e.
Qed.

Lemma failed_record_has_message_witness :
  let a := {| name := "a.xml"; size := 10 |} in
  let trace := [AddFiles [a]; UploadFile 0; HttpError 0 (Some "")] in
  exists st f,
    run trace (initial "") = Some st /\
    heap st !! 0%nat = Some f /\
    status f = failed /\
    exists e, error f = Some e /\ e <> "".
Proof.
  intros a trace. eexists _, _.
  split; [vm_compute; reflexivity|].
  split; [vm_compute; reflexivity|].
  split; [vm_compute; reflexivity|].
  eapply (failed_record_has_message "" trace _ 0%nat); vm_compute; reflexivity.
Defined.

(** ** Starting an upload *)

(** X6. [uploadFile] on a record that is not uploading (pending, or
    already succeeded or failed) marks it uploading and keeps its
    progress and error message as they were, raises [isUploading], and
    posts one request to the backend URL with the fields [file] (the
    record's file) and [type] = ["neural-data"]; the queue, the other
    records and the alert are not touched. *)
Theorem uploadFile_starts
    (st : State) (index : Z) (r : ref) (f : UploadedFile)
    (Hindex : array_get (uploadedFiles st) index = Some r)
    (Hf : heap st !! r = Some f)
    (Hs : status f <> uploading) :
  exists st',
    uploadFile index st = Ok st' /\
    heap st' !! r = Some {| file := file f; progress := progress f;
                            status := uploading; error := error f |} /\
    (forall r', r' <> r -> heap st' !! r' = heap st !! r') /\
    isUploading st' = true /\
    requests st' = requests st ++
      [ {| target := r; url := backendUrl st;
           formData := [("file", FormFile (file f));
                        ("type", FormString "neural-data")];
           live := true |} ] /\
    uploadedFiles st' = uploadedFiles st /\
    alertView st' = alertView st.
Proof.
  unfold uploadFile. rewrite Hindex, Hf.
  destruct (Status_eqb (status f) uploading) eqn:E;
    [apply Status_eqb_eq in E; contradiction|].
  pose proof (lookup_lt_Some _ _ _ Hf) as Hlt.
  eexists. split; [reflexivity|]. simpl.
  split; [now apply list_lookup_insert_eq|].
  split; [intros r' Hne; apply list_lookup_insert_ne; congruence|].
  repeat split.
Qed.

Lemma uploadFile_starts_witness :
  let a := {| name := "a.xml"; size := 10 |} in
  let trace := [AddFiles [a]; UploadFile 0;
                HttpNext 0 (UploadProgress 4 (Some 10));
                HttpError 0 (Some "timeout")] in
  exists st f,
    run trace (initial "http://backend/upload") = Some st /\
    array_get (uploadedFiles st) 0 = Some 0%nat /\
    heap st !! 0%nat = Some f /\
    status f <> uploading /\
    exists st',
      uploadFile 0 st = Ok st' /\
      heap st' !! 0%nat = Some {| file := file f; progress := progress f;
                                  status := uploading; error := error f |} /\
      (forall r', r' <> 0%nat -> heap st' !! r' = heap st !! r') /\
      isUploading st' = true /\
      requests st' = requests st ++
        [ {| target := 0%nat; url := backendUrl st;
             formData := [("file", FormFile (file f));
                          ("type", FormString "neural-data")];
             live := true |} ] /\
      uploadedFiles st' = uploadedFiles st /\
      alertView st' = alertView st.
Proof.
  intros a trace. eexists _, _.
  split; [vm_compute; reflexivity|].
  split; [vm_compute; reflexivity|].
  split; [vm_compute; reflexivity|].
  split; [vm_compute; discriminate|].
  apply (uploadFile_starts _ 0 0%nat).
  - vm_compute. reflexivity.
  - vm_compute. reflexivity.
  - vm_compute. discriminate.
Defined.

(** ** The response *)

(** X7. When the response of an open request arrives, its record gets
    status success and progress 100 and keeps whatever error message an
    earlier failed attempt left on it; the alert names the file, is of
    kind success, and one more timer is set, 5000 ms from now. *)
Theorem response_keeps_error_message
    (backend : string) (trace : list Action) (st : State)
    (id : nat) (rq : Request) (f : UploadedFile)
    (Hrun : run trace (initial backend) = Some st)
    (Hid : requests st !! id = Some rq)
    (Hlive : live rq = true)
    (Hf : heap st !! target rq = Some f) :
  exists st',
    exec (HttpNext id Response) st = Some st' /\
    heap st' !! target rq = Some {| file := file f; progress := 100;
                                    status := success; error := error f |} /\
    alertMessage st' = ("File " ++ name (file f) ++ " uploaded successfully!")%string /\
    alertType st' = "alert-success" /\
    timers st' = timers st ++ [now st + 5000].
Proof.
  pose proof (wf_reachable backend trace st Hrun) as Hwf.
  destruct (exec_next_cases st id rq Response Hwf Hid Hlive) as (f0 & Hf0 & _ & Heq).
  unfold ref in *. rewrite Hf in Hf0. injection Hf0 as <-.
  eexists. split; [exact Heq|].
  pose proof (lookup_lt_Some _ _ _ Hf) as Hlt.
  unfold retire. rewrite Hid. simpl.
  split; [now apply list_lookup_insert_eq|]. repeat split.
Qed.

Lemma response_keeps_error_message_witness :
  let a := {| name := "a.xml"; size := 10 |} in
  let trace := [AddFiles [a]; UploadFile 0; HttpError 0 (Some "timeout");
                UploadFile 0] in
  exists st rq f,
    run trace (initial "") = Some st /\
    requests st !! 1%nat = Some rq /\
    live rq = true /\
    heap st !! target rq = Some f /\
    error f = Some "timeout" /\
    exists st',
      exec (HttpNext 1 Response) st = Some st' /\
      heap st' !! target rq = Some {| file := file f; progress := 100;
                                      status := success; error := error f |} /\
      alertMessage st' = ("File " ++ name (file f) ++ " uploaded successfully!")%string /\
      alertType st' = "alert-success" /\
      timers st' = timers st ++ [now st + 5000].
Proof.
  intros a trace. eexists _, _, _.
  split; [vm_compute; reflexivity|].
  split; [vm_compute; reflexivity|].
  split; [vm_compute; reflexivity|].
  split; [vm_compute; reflexivity|].
  split; [vm_compute; reflexivity|].
  apply (response_keeps_error_message "" trace _ 1%nat).
  - vm_compute. reflexivity.
  - vm_compute. reflexivity.
  - vm_compute. reflexivity.
  - vm_compute. reflexivity.
Defined.

(** ** The isUploading flag *)

Lemma addFiles_frame (files : list File) (st : State) :
  let st' := addFiles files st in
  isDragOver st' = isDragOver st /\ isUploading st' = isUploading st /\
  backendUrl st' = backendUrl st /\ now st' = now st /\
  requests st' = requests st.
Proof.
  unfold addFiles.
  match goal with |- context [fold_left push ?l ?s] =>
    destruct (push_all_frame l s) as (H1 & H2 & _ & _ & H5 & H6 & _ & H8)
  end.
  simpl. rewrite H1, H2, H5, H6, H8.
  destruct (negb _); repeat split.
Qed.

Lemma clear_all_frame (due : list Z) : forall st,
  let st' := fold_left (fun s _ => clearAlert s) due st in
  isDragOver st' = isDragOver st /\ isUploading st' = isUploading st /\
  backendUrl st' = backendUrl st /\ requests st' = requests st.
Proof.
  induction due as [|d due IH]; intros st; simpl; [now repeat split|].
  apply (IH (clearAlert st)).
Qed.

Lemma elapse_frame (t : Z) (st : State) :
  isDragOver (elapse t st) = isDragOver st /\
  isUploading (elapse t st) = isUploading st /\
  backendUrl (elapse t st) = backendUrl st /\
  requests (elapse t st) = requests st.
Proof.
  unfold elapse. cbn [isDragOver isUploading backendUrl requests set_now set_timers].
  apply clear_all_frame.
Qed.

Lemma flag_uploadFile (index : Z) (st : State) :
  (isUploading st = true -> inFlight st) ->
  isUploading (state_of (uploadFile index st)) = true ->
  inFlight (state_of (uploadFile index st)).
Proof.
  intros HP. destruct (uploadFile_cases index st) as [->|(r & f & _ & _ & _ & ->)];
    [exact HP|].
  intros _. eexists (length (requests st)), _. simpl. split.
  - apply lookup_snoc_Some. right. split; reflexivity.
  - reflexivity.
Qed.

Lemma flag_exec (a : Action) (st st' : State) :
  wf st -> (isUploading st = true -> inFlight st) ->
  exec a st = Some st' ->
  isUploading st' = true -> inFlight st'.
Proof.
  intros Hwf HP Hex.
  assert (Hframe : isUploading st' = isUploading st ->
                   requests st' = requests st ->
                   isUploading st' = true -> inFlight st').
  { intros Hu Hr Ht. unfold inFlight. rewrite Hr. apply HP. congruence. }
  destruct a; simpl in Hex.
  - injection Hex as <-. now apply Hframe.
  - injection Hex as <-. now apply Hframe.
  - injection Hex as <-. unfold onDrop. destruct files as [files|].
    + destruct (addFiles_frame files (set_isDragOver false st))
        as (_ & Hu & _ & _ & Hr).
      now apply Hframe.
    + now apply Hframe.
  - injection Hex as <-. unfold onFileSelected. destruct files as [files|].
    + destruct (addFiles_frame files st) as (_ & Hu & _ & _ & Hr).
      now apply Hframe.
    + now apply Hframe.
  - injection Hex as <-.
    destruct (addFiles_frame files st) as (_ & Hu & _ & _ & Hr).
    now apply Hframe.
  - injection Hex as <-. now apply flag_uploadFile.
  - injection Hex as <-.
    apply (uploadEach_invariant (fun s => isUploading s = true -> inFlight s));
      [apply flag_uploadFile | exact HP].
  - injection Hex as <-. now apply Hframe.
  - destruct (requests st !! id) as [rq|] eqn:Hid; [|discriminate].
    destruct (live rq) eqn:Hlive; [|discriminate].
    destruct (exec_next_cases st id rq event Hwf Hid Hlive) as (f0 & _ & _ & Heq).
    simpl in Heq. rewrite Hid, Hlive in Heq. rewrite Heq in Hex.
    injection Hex as <-. destruct event; try (now apply Hframe).
    simpl. discriminate.
  - destruct (requests st !! id) as [rq|] eqn:Hid; [|discriminate].
    destruct (live rq) eqn:Hlive; [|discriminate].
    destruct (exec_error_cases st id rq message Hwf Hid Hlive) as (f0 & _ & _ & Heq).
    simpl in Heq. rewrite Hid, Hlive in Heq. rewrite Heq in Hex.
    injection Hex as <-. simpl. discriminate.
  - destruct (now st <=? t); [|discriminate]. injection Hex as <-.
    destruct (elapse_frame t st) as (_ & Hu & _ & Hr). now apply Hframe.
  - injection Hex as <-. now apply Hframe.
Qed.

(** X8. In every reachable state, [isUploading] is true only while some
    request is still open: the flag never claims an upload that is not
    there. *)
Theorem isUploading_means_in_flight
    (backend : string) (trace : list Action) (st : State)
    (Hrun : run trace (initial backend) = Some st)
    (Hflag : isUploading st = true) :
  exists id rq, requests st !! id = Some rq /\ live rq = true.
Proof.
  revert Hflag.
  apply (run_invariant (fun s => isUploading s = true -> inFlight s))
    with (trace := trace) (st := initial backend);
    [| apply wf_initial | | exact Hrun].
  - intros a s s' Hwf HP Hex. now apply (flag_exec a s s').
  - simpl. discriminate.
Qed.

Lemma isUploading_means_in_flight_witness :
  let a := {| name := "a.xml"; size := 10 |} in
  let b := {| name := "b.dat"; size := 20 |} in
  let trace := [AddFiles [a; b]; UploadFile 0; HttpNext 0 Response;
                UploadFile 1; RemoveFile 1] in
  exists st,
    run trace (initial "") = Some st /\
    isUploading st = true /\
    exists id rq, requests st !! id = Some rq /\ live rq = true.
Proof.
  intros a b trace. eexists.
  split; [vm_compute; reflexivity|].
  split; [vm_compute; reflexivity|].
  eapply (isUploading_means_in_flight "" trace); vm_compute; reflexivity.
Defined.

(** X9. The converse fails by design of the flag: when one of two open
    requests gets its response, [isUploading] drops to false although
    the other request is still open and its record still uploading. *)
Theorem isUploading_drops_with_sibling_in_flight
    (backend : string) (trace : list Action) (st : State)
    (i j : nat) (rqi rqj : Request)
    (Hrun : run trace (initial backend) = Some st)
    (Hi : requests st !! i = Some rqi) (Hli : live rqi = true)
    (Hj : requests st !! j = Some rqj) (Hlj : live rqj = true)
    (Hij : i <> j) :
  exists st' f,
    exec (HttpNext i Response) st = Some st' /\
    isUploading st' = false /\
    requests st' !! j = Some rqj /\
    heap st' !! target rqj = Some f /\ status f = uploading.
Proof.
  pose proof (wf_reachable backend trace st Hrun) as Hwf.
  destruct (exec_next_cases st i rqi Response Hwf Hi Hli) as (f0 & Hf0 & _ & Heq).
  match type of Heq with _ = Some ?s => set (st' := s) in * end.
  assert (Hwf' : wf st') by exact (wf_exec _ _ _ Hwf Heq).
  assert (Hj' : requests st' !! j = Some rqj).
  { subst st'. unfold retire. rewrite Hi. simpl.
    rewrite list_lookup_insert_ne by congruence. exact Hj. }
  destruct (wf_live _ Hwf' j rqj Hj' Hlj) as (f & Hf & Hs).
  exists st', f. split; [exact Heq|]. split; [reflexivity|].
  split; [exact Hj'|]. split; [exact Hf | exact Hs].
Qed.

Lemma isUploading_drops_with_sibling_in_flight_witness :
  let a := {| name := "a.xml"; size := 10 |} in
  let b := {| name := "b.dat"; size := 20 |} in
  let trace := [AddFiles [a; b]; UploadAllFiles] in
  exists st rqi rqj,
    run trace (initial "") = Some st /\
    requests st !! 0%nat = Some rqi /\ live rqi = true /\
    requests st !! 1%nat = Some rqj /\ live rqj = true /\
    0%nat <> 1%nat /\
    exists st' f,
      exec (HttpNext 0 Response) st = Some st' /\
      isUploading st' = false /\
      requests st' !! 1%nat = Some rqj /\
      heap st' !! target rqj = Some f /\ status f = uploading.
Proof.
  intros a b trace. eexists _, _, _.
  split; [vm_compute; reflexivity|].
  split; [vm_compute; reflexivity|].
  split; [vm_compute; reflexivity|].
  split; [vm_compute; reflexivity|].
  split; [vm_compute; reflexivity|].
  split; [discriminate|].
  eapply (isUploading_drops_with_sibling_in_flight "" trace _ 0%nat 1%nat).
  - vm_compute. reflexivity.
  - vm_compute. reflexivity.
  - vm_compute. reflexivity.
  - vm_compute. reflexivity.
  - vm_compute. reflexivity.
  - discriminate.
Defined.

(** ** What is posted *)

Lemma requestsOk_frame (backend : string) (st st' : State) :
  heap st' = heap st -> requests st' = requests st ->
  backendUrl st' = backendUrl st ->
  requestsOk backend st -> requestsOk backend st'.
Proof.
  intros Hh Hr Hb [Hurl Hall]. split; [congruence|].
  rewrite Hh, Hr. exact Hall.
Qed.

Lemma requestsOk_store (backend : string) (st : State) (r : ref)
    (old new : UploadedFile) :
  requestsOk backend st -> heap st !! r = Some old -> file new = file old ->
  requestsOk backend (set_heap (<[r := new]> (heap st)) st).
Proof.
  intros [Hurl Hall] Hold Hfile. split; [exact Hurl|]. simpl.
  intros id rq Hid. destruct (Hall id rq Hid) as (Hu & f & Hf & Hform).
  split; [exact Hu|]. destruct (decide (target rq = r)) as [Heq|Hne].
  - exists new. rewrite Heq in *.
    rewrite list_lookup_insert_eq by (eapply lookup_lt_Some; eassumption).
    split; [reflexivity|]. unfold ref in *. rewrite Hold in Hf.
    injection Hf as <-. now rewrite Hfile.
  - exists f. rewrite list_lookup_insert_ne by congruence. now split.
Qed.

Lemma requestsOk_retire (backend : string) (id : nat) (st : State) :
  requestsOk backend st -> requestsOk backend (retire id st).
Proof.
  intros [Hurl Hall]. unfold retire.
  destruct (requests st !! id) as [rq0|] eqn:Hid0; [|now split].
  split; [exact Hurl|]. simpl. intros i rq Hi.
  destruct (decide (i = id)) as [->|Hne].
  - rewrite list_lookup_insert_eq in Hi by (eapply lookup_lt_Some; eassumption).
    injection Hi as <-. simpl. now apply (Hall id).
  - rewrite list_lookup_insert_ne in Hi by congruence. now apply (Hall i).
Qed.

Lemma requestsOk_addFiles (backend : string) (files : list File) (st : State) :
  requestsOk backend st -> requestsOk backend (addFiles files st).
Proof.
  intros [Hurl Hall].
  destruct (addFiles_frame files st) as (_ & _ & Hb & _ & Hr).
  split; [congruence|]. rewrite Hr. intros id rq Hid.
  destruct (Hall id rq Hid) as (Hu & f & Hf & Hform).
  split; [exact Hu|]. exists f. split; [|exact Hform].
  now apply addFiles_heap_old.
Qed.

Lemma requestsOk_uploadFile (backend : string) (index : Z) (st : State) :
  requestsOk backend st -> requestsOk backend (state_of (uploadFile index st)).
Proof.
  intros Hok.
  destruct (uploadFile_cases index st) as [->|(r & f & _ & Hf & _ & ->)];
    [exact Hok|].
  simpl. pose proof (requestsOk_store backend st r f (with_status uploading f)
                       Hok Hf eq_refl) as [Hurl Hall].
  split; [exact Hurl|]. simpl in *. intros id rq Hid.
  apply lookup_snoc_Some in Hid. destruct Hid as [[_ Hid]|[_ <-]].
  - now apply (Hall id).
  - simpl. split; [exact Hurl|]. exists (with_status uploading f).
    split; [|reflexivity].
    apply list_lookup_insert_eq. eapply lookup_lt_Some; eassumption.
Qed.

Lemma requestsOk_exec (backend : string) (a : Action) (st st' : State) :
  wf st -> requestsOk backend st -> exec a st = Some st' ->
  requestsOk backend st'.
Proof.
  intros Hwf Hok Hex. destruct a; simpl in Hex.
  - injection Hex as <-. revert Hok. now apply requestsOk_frame.
  - injection Hex as <-. revert Hok. now apply requestsOk_frame.
  - injection Hex as <-. unfold onDrop.
    assert (Hok' : requestsOk backend (set_isDragOver false st))
      by (revert Hok; now apply requestsOk_frame).
    destruct files as [files|]; [now apply requestsOk_addFiles | exact Hok'].
  - injection Hex as <-. unfold onFileSelected.
    destruct files as [files|]; [now apply requestsOk_addFiles | exact Hok].
  - injection Hex as <-. now apply requestsOk_addFiles.
  - injection Hex as <-. now apply requestsOk_uploadFile.
  - injection Hex as <-.
    apply (uploadEach_invariant (requestsOk backend));
      [intros i s; apply requestsOk_uploadFile | exact Hok].
  - injection Hex as <-. revert Hok. now apply requestsOk_frame.
  - destruct (requests st !! id) as [rq|] eqn:Hid; [|discriminate].
    destruct (live rq) eqn:Hlive; [|discriminate].
    destruct (exec_next_cases st id rq event Hwf Hid Hlive) as (f0 & Hf0 & _ & Heq).
    simpl in Heq. rewrite Hid, Hlive in Heq. rewrite Heq in Hex.
    injection Hex as <-. destruct event; try exact Hok.
    + now apply (requestsOk_store backend st (target rq) f0).
    + match goal with |- requestsOk _ (showAlert _ _ (set_isUploading _ ?s)) =>
        apply (requestsOk_frame backend s); try reflexivity end.
      apply (requestsOk_store backend (retire id st) (target rq) f0);
        [now apply requestsOk_retire | now rewrite retire_heap | reflexivity].
  - destruct (requests st !! id) as [rq|] eqn:Hid; [|discriminate].
    destruct (live rq) eqn:Hlive; [|discriminate].
    destruct (exec_error_cases st id rq message Hwf Hid Hlive) as (f0 & Hf0 & _ & Heq).
    simpl in Heq. rewrite Hid, Hlive in Heq. rewrite Heq in Hex.
    injection Hex as <-.
    match goal with |- requestsOk _ (showAlert _ _ (set_isUploading _ ?s)) =>
      apply (requestsOk_frame backend s); try reflexivity end.
    apply (requestsOk_store backend (retire id st) (target rq) f0);
      [now apply requestsOk_retire | now rewrite retire_heap | reflexivity].
  - destruct (now st <=? t); [|discriminate]. injection Hex as <-.
    destruct (elapse_frame t st) as (_ & _ & Hb & Hr).
    revert Hok. apply requestsOk_frame; auto. apply elapse_heap.
  - injection Hex as <-. revert Hok. now apply requestsOk_frame.
Qed.

(** X10. Every request the component has ever posted went to the
    configured backend URL and carries exactly two fields: [file], the
    file of the record it uploads, which passes [isValidFile], and
    [type] = ["neural-data"]. *)
Theorem requests_carry_valid_files
    (backend : string) (trace : list Action) (st : State)
    (id : nat) (rq : Request)
    (Hrun : run trace (initial backend) = Some st)
    (Hid : requests st !! id = Some rq) :
  url rq = backend /\
  exists f, heap st !! target rq = Some f /\
            formData rq = [("file", FormFile (file f));
                           ("type", FormString "neural-data")] /\
            isValidFile (file f) = true.
Proof.
  assert (Hok : requestsOk backend st).
  { apply (run_invariant (requestsOk backend))
      with (trace := trace) (st := initial backend);
      [| apply wf_initial | | exact Hrun].
    - intros a s s' Hwf HP Hex. now apply (requestsOk_exec backend a s s').
    - split; [reflexivity|]. intros i r Hi. simpl in Hi.
      now rewrite lookup_nil in Hi. }
  destruct Hok as [_ Hall]. destruct (Hall id rq Hid) as (Hu & f & Hf & Hform).
  split; [exact Hu|]. exists f. split; [exact Hf|]. split; [exact Hform|].
  apply (record_invariant (fun g => isValidFile (file g) = true))
    with (backend := backend) (trace := trace) (st := st) (r := target rq);
    [ | | exact Hrun | exact Hf].
  - intros a Ha. exact Ha.
  - intros g g' Htr. now rewrite (transition_file g g' Htr).
Qed.

Lemma requests_carry_valid_files_witness :
  let a := {| name := "a.xml"; size := 10 |} in
  let b := {| name := "b.dat"; size := 20 |} in
  let trace := [AddFiles [a; b]; UploadAllFiles; HttpNext 0 Response;
                RemoveFile 0; UploadFile 0] in
  exists st rq,
    run trace (initial "http://backend/upload") = Some st /\
    requests st !! 1%nat = Some rq /\
    url rq = "http://backend/upload" /\
    exists f, heap st !! target rq = Some f /\
              formData rq = [("file", FormFile (file f));
                             ("type", FormString "neural-data")] /\
              isValidFile (file f) = true.
Proof.
  intros a b trace. eexists _, _.
  split; [vm_compute; reflexivity|].
  split; [vm_compute; reflexivity|].
  eapply (requests_carry_valid_files _ trace _ 1%nat); vm_compute; reflexivity.
Defined.


(** ** Alerts along a run *)

Lemma showAlert_view (m : string) (k : AlertKind) (s s0 : State) :
  alertView s = alertView s0 ->
  alertView (showAlert m k s) = alertView (showAlert m k s0).
Proof.
  unfold alertView. intros Heq. injection Heq as Hm Ht Hts Hn.
  simpl. now rewrite Hts, Hn.
Qed.

Lemma addFiles_alertView (files : list File) (st : State) :
  alertView (addFiles files st) = alertView st \/
  alertView (addFiles files st) =
    alertView (showAlert "Some files were skipped due to invalid format or size"
                 alert_error st).
Proof.
  unfold addFiles.
  match goal with |- context [fold_left push ?l ?s] =>
    destruct (push_all_frame l s) as (_ & _ & Hm & Ht & _ & Hn & Hts & _)
  end.
  unfold alertView at 1 3. rewrite Hm, Ht, Hn, Hts.
  destruct (negb _); [right | left]; reflexivity.
Qed.

Lemma onNext_alertView (r : ref) (event : HttpEvent) (s : State) :
  alertView (state_of (onNext r event s)) = alertView s \/
  exists nm,
    alertView (state_of (onNext r event s)) =
      alertView (showAlert ("File " ++ nm ++ " uploaded successfully!")
                   alert_success s).
Proof.
  unfold onNext. destruct (heap s !! r) as [f|]; [|now left].
  destruct event; try (now left).
  right. exists (name (file f)). reflexivity.
Qed.

Lemma onError_alertView (r : ref) (message : option string) (s : State) :
  alertView (state_of (onError r message s)) = alertView s \/
  exists nm e,
    alertView (state_of (onError r message s)) =
      alertView (showAlert ("Failed to upload " ++ nm ++ ": " ++ e)
                   alert_error s).
Proof.
  unfold onError. destruct (heap s !! r) as [f|]; [|now left].
  right. exists (name (file f)), (message_or_default message). reflexivity.
Qed.

Lemma retire_alertView (id : nat) (st : State) :
  alertView (retire id st) = alertView st.
Proof. unfold retire. now destruct (requests st !! id). Qed.

(** A step leaves the alert and its timers alone, or shows an alert,
    or is the passing of time.  An alert that is not shown by a direct
    call of [showAlert] has a message and is of kind success or
    error. *)
Lemma exec_alert (a : Action) (st st' : State) :
  exec a st = Some st' ->
  alertView st' = alertView st \/
  (exists m k, (a = ShowAlert m k \/ (m <> "" /\ k <> alert_info)) /\
               alertView st' = alertView (showAlert m k st)) \/
  (exists t, now st <= t /\ st' = elapse t st).
Proof.
  intros Hex. destruct a; simpl in Hex.
  - injection Hex as <-. now left.
  - injection Hex as <-. now left.
  - injection Hex as <-. unfold onDrop. destruct files as [files|]; [|now left].
    destruct (addFiles_alertView files (set_isDragOver false st)) as [H|H].
    + left. exact H.
    + right; left. eexists _, alert_error. split; [|exact H]. right; split; discriminate.
  - injection Hex as <-. unfold onFileSelected.
    destruct files as [files|]; [|now left].
    destruct (addFiles_alertView files st) as [H|H].
    + left. exact H.
    + right; left. eexists _, alert_error. split; [|exact H]. right; split; discriminate.
  - injection Hex as <-. destruct (addFiles_alertView files st) as [H|H].
    + left. exact H.
    + right; left. eexists _, alert_error. split; [|exact H]. right; split; discriminate.
  - injection Hex as <-. left.
    destruct (uploadFile_alert index st) as (Hm & Ht & Hts & Hn).
    unfold alertView. now rewrite Hm, Ht, Hts, Hn.
  - injection Hex as <-. left.
    destruct (uploadEach_alert
                (List.filter (statusIs pending st) (uploadedFiles st)) st)
      as (Hm & Ht & Hts & Hn).
    unfold alertView, uploadAllFiles. now rewrite Hm, Ht, Hts, Hn.
  - injection Hex as <-. now left.
  - open_request Hex.
    match goal with |- context [onNext ?r ?e ?s] =>
      assert (Hs : alertView s = alertView st)
        by (destruct (isResponse e); [apply retire_alertView | reflexivity]);
      destruct (onNext_alertView r e s) as [H|[nm H]]
    end.
    + left. congruence.
    + right; left. eexists _, alert_success.
      split; [|rewrite H; apply showAlert_view, Hs].
      right; split; discriminate.
  - open_request Hex.
    destruct (onError_alertView (target rq) message (retire id st)) as [H|(nm & e & H)].
    + left. rewrite H. apply retire_alertView.
    + right; left. eexists _, alert_error.
      split; [|rewrite H; apply showAlert_view, retire_alertView].
      right; split; discriminate.
  - destruct (Z.leb_spec (now st) t); [|discriminate]. injection Hex as <-.
    right; right. now exists t.
  - injection Hex as <-. right; left. exists message, type. now split; [left|].
Qed.

(** A property of the alert and its timers that holds at the start, is
    kept by every alert and by the passing of time, holds in every
    reachable state. *)
Lemma alert_invariant (P : string * string * list Z * Z -> Prop) :
  P ("", "", [], 0) ->
  (forall st m k, P (alertView st) -> P (alertView (showAlert m k st))) ->
  (forall st t, now st <= t -> P (alertView st) -> P (alertView (elapse t st))) ->
  forall backend trace st,
    run trace (initial backend) = Some st -> P (alertView st).
Proof.
  intros H0 Hshow Htime backend trace st Hrun.
  apply (run_invariant (fun s => P (alertView s)))
    with (trace := trace) (st := initial backend);
    [| apply wf_initial | exact H0 | exact Hrun].
  intros a s s' _ HP Hex.
  destruct (exec_alert a s s' Hex) as [->|[(m & k & _ & ->)|(t & Ht & ->)]].
  - exact HP.
  - now apply Hshow.
  - now apply Htime.
Qed.

Lemma plainAlert_args (m : string) (k : AlertKind) :
  plainAlert (ShowAlert m k) = true -> m <> "" /\ k <> alert_info.
Proof.
  simpl. intros H. apply andb_prop in H. destruct H as [Hm Hk]. split.
  - intros ->. discriminate.
  - intros ->. discriminate.
Qed.

(** The same along runs in which every direct call of [showAlert] is
    plain: there the property has to be kept only by alerts that have a
    message and are of kind success or error. *)
Lemma plain_alert_invariant (P : string * string * list Z * Z -> Prop) :
  (forall st m k, m <> "" -> k <> alert_info ->
                  P (alertView st) -> P (alertView (showAlert m k st))) ->
  (forall st t, now st <= t -> P (alertView st) -> P (alertView (elapse t st))) ->
  forall trace s st,
    forallb plainAlert trace = true ->
    P (alertView s) -> run trace s = Some st -> P (alertView st).
Proof.
  intros Hshow Htime. induction trace as [|a trace IH];
    intros s st Hplain HP Hrun; simpl in Hrun.
  - now injection Hrun as <-.
  - destruct (exec a s) as [s1|] eqn:Hex; [|discriminate].
    cbn [forallb] in Hplain. apply andb_prop in Hplain.
    destruct Hplain as [Ha Hrest].
    apply (IH s1 st Hrest); [|exact Hrun].
    destruct (exec_alert a s s1 Hex)
      as [->|[(m & k & Hargs & ->)|(t & Ht & ->)]].
    + exact HP.
    + assert (Hmk : m <> "" /\ k <> alert_info).
      { destruct Hargs as [->|Hmk]; [now apply plainAlert_args | exact Hmk]. }
      destruct Hmk as [Hm Hk]. now apply Hshow.
    + now apply Htime.
Qed.

Lemma filter_none_due (t : Z) (l : list Z) :
  List.filter (fun d => d <=? t) l = [] ->
  List.filter (fun d => t <? d) l = l.
Proof.
  induction l as [|d l IH]; simpl; [reflexivity|].
  destruct (Z.leb_spec d t) as [|Hgt]; [discriminate|]. intros Hnil.
  destruct (Z.ltb_spec t d) as [_|Hle]; [|lia]. now rewrite IH.
Qed.

(** Time passing either clears the alert or leaves alert and timers as
    they are. *)
Lemma elapse_alert_cases (t : Z) (st : State) :
  (alertMessage (elapse t st) = "" /\ alertType (elapse t st) = "") \/
  (alertMessage (elapse t st) = alertMessage st /\
   alertType (elapse t st) = alertType st /\
   timers (elapse t st) = timers st).
Proof.
  rewrite elapse_timers. unfold elapse. simpl.
  destruct (clear_all (List.filter (fun d => d <=? t) (timers st)) st)
    as (_ & _ & Hnil & Hcons).
  destruct (List.filter (fun d => d <=? t) (timers st)) as [|d l] eqn:E.
  - right. destruct (Hnil eq_refl) as [-> ->].
    split; [reflexivity|]. split; [reflexivity|]. now apply filter_none_due.
  - left. now apply Hcons.
Qed.

(** X11. In every state reached by a run in which each direct call of
    [showAlert] passes a message that is not empty and a kind other than
    info, the alert message and the alert kind are both empty or both
    set, and the kind is ["alert-success"] or ["alert-error"]: the
    component's other methods never show an alert of kind info, nor one
    without a message. *)
Theorem alert_message_and_kind_agree
    (backend : string) (trace : list Action) (st : State)
    (Hplain : forallb plainAlert trace = true)
    (Hrun : run trace (initial backend) = Some st) :
  (alertMessage st = "" <-> alertType st = "") /\
  (alertType st = "" \/ alertType st = "alert-success" \/
   alertType st = "alert-error").
Proof.
  apply (plain_alert_invariant
           (fun v => (v.1.1.1 = "" <-> v.1.1.2 = "") /\
                     (v.1.1.2 = "" \/ v.1.1.2 = "alert-success" \/
                      v.1.1.2 = "alert-error")))
    with (trace := trace) (s := initial backend);
    [| | exact Hplain | | exact Hrun].
  - intros s m k Hm Hk _. simpl. split.
    + split; [contradiction | destruct k; discriminate].
    + destruct k; [right; left | right; right | contradiction]; reflexivity.
  - intros s t _ [Hiff Hkind]. unfold alertView in *. cbn [fst snd] in *.
    destruct (elapse_alert_cases t s) as [[-> ->]|(-> & -> & _)].
    + split; [tauto | now left].
    + now split.
  - simpl. tauto.
Qed.

Lemma alert_message_and_kind_agree_witness :
  let a := {| name := "a.xml"; size := 10 |} in
  let b := {| name := "b.exe"; size := 10 |} in
  let trace := [AddFiles [a; b]; Elapse 2000; UploadFile 0;
                ShowAlert "Saved" alert_success;
                HttpNext 0 Response; Elapse 5000] in
  exists st,
    forallb plainAlert trace = true /\
    run trace (initial "") = Some st /\
    (alertMessage st = "" <-> alertType st = "") /\
    (alertType st = "" \/ alertType st = "alert-success" \/
     alertType st = "alert-error").
Proof.
  intros a b trace. eexists.
  split; [vm_compute; reflexivity|].
  split; [vm_compute; reflexivity|].
  apply (alert_message_and_kind_agree "" trace);
    vm_compute; reflexivity.
Defined.

(** Without that condition the kind can be info and the message empty:
    [showAlert] is public and stores what it is given. *)
Example direct_alert_of_kind_info :
  exists st,
    run [ShowAlert "" alert_info] (initial "") = Some st /\
    alertMessage st = "" /\ alertType st = "alert-info".
Proof. eexists. repeat split. Qed.

(** Every pending timer is due after now and at most 5000 ms from now,
    and without a pending timer there is no alert. *)
Lemma timers_bounded (backend : string) (trace : list Action) (st : State) :
  run trace (initial backend) = Some st ->
  (forall d, In d (timers st) -> now st < d <= now st + 5000) /\
  (timers st = [] -> alertMessage st = "" /\ alertType st = "").
Proof.
  intros Hrun.
  apply (alert_invariant
           (fun v => (forall d, In d v.1.2 -> v.2 < d <= v.2 + 5000) /\
                     (v.1.2 = [] -> v.1.1.1 = "" /\ v.1.1.2 = "")))
    with (backend := backend) (trace := trace); [| | | exact Hrun].
  - simpl. split; [contradiction | now split].
  - intros s m k [Hb _]. simpl in *. split.
    + intros d Hd. apply in_app_or in Hd. destruct Hd as [Hd|[<-|[]]].
      * now apply Hb.
      * unfold alertDelay. lia.
    + intros H. apply app_eq_nil in H. destruct H as [_ H']. discriminate.
  - intros s t Ht [Hb He]. unfold alertView in *. cbn [fst snd] in *.
    rewrite elapse_now. split.
    + intros d Hd. rewrite elapse_timers in Hd. apply filter_In in Hd.
      destruct Hd as [Hd Hlt]. apply Z.ltb_lt in Hlt.
      specialize (Hb d Hd). lia.
    + intros Hnil.
      destruct (elapse_alert_cases t s) as [H|(Hm & Hty & Hts)]; [exact H|].
      rewrite Hm, Hty. apply He. now rewrite <- Hts.
Qed.

(** X12. In every reachable state every pending timer is due later than
    now and no later than 5000 ms from now, and an alert is on display
    only while a timer is pending: no alert is left without a timer that
    will clear it. *)
Theorem shown_alert_has_pending_timer
    (backend : string) (trace : list Action) (st : State)
    (Hrun : run trace (initial backend) = Some st) :
  (forall d, In d (timers st) -> now st < d <= now st + 5000) /\
  (alertMessage st <> "" \/ alertType st <> "" -> timers st <> []).
Proof.
  destruct (timers_bounded backend trace st Hrun) as [Hb He].
  split; [exact Hb|]. intros Hshown Hnil.
  destruct (He Hnil) as [Hm Ht]. destruct Hshown; contradiction.
Qed.

Lemma shown_alert_has_pending_timer_witness :
  let a := {| name := "a.xml"; size := 10 |} in
  let b := {| name := "b.exe"; size := 10 |} in
  let trace := [AddFiles [a; b]; Elapse 2000; UploadFile 0;
                HttpNext 0 (UploadProgress 1 None); HttpError 0 None;
                Elapse 5000] in
  exists st,
    run trace (initial "") = Some st /\
    (forall d, In d (timers st) -> now st < d <= now st + 5000) /\
    (alertMessage st <> "" \/ alertType st <> "" -> timers st <> []).
Proof.
  intros a b trace. eexists.
  split; [vm_compute; reflexivity|].
  apply (shown_alert_has_pending_timer "" trace). vm_compute. reflexivity.
Defined.

(** X13. From any reachable state, once 5000 ms have passed without
    anything else happening, no alert is showing and no timer is left. *)
Theorem quiet_period_clears_everything
    (backend : string) (trace : list Action) (st : State) (t : Z)
    (Hrun : run trace (initial backend) = Some st)
    (Ht : now st + 5000 <= t) :
  alertMessage (elapse t st) = "" /\ alertType (elapse t st) = "" /\
  timers (elapse t st) = [].
Proof.
  destruct (timers_bounded backend trace st Hrun) as [Hb He].
  assert (Hts : timers (elapse t st) = []).
  { rewrite elapse_timers.
    destruct (List.filter (fun d => t <? d) (timers st)) as [|d l] eqn:E;
      [reflexivity|].
    assert (Hd : In d (List.filter (fun d => t <? d) (timers st)))
      by (rewrite E; now left).
    apply filter_In in Hd. destruct Hd as [Hd Hlt]. apply Z.ltb_lt in Hlt.
    specialize (Hb d Hd). lia. }
  split; [|split; [|exact Hts]];
    destruct (elapse_alert_cases t st) as [[Hm Hty]|(Hm & Hty & Hsame)];
    try assumption;
    rewrite Hsame in Hts; destruct (He Hts) as [Hm0 Hty0]; congruence.
Qed.

Lemma quiet_period_clears_everything_witness :
  let a := {| name := "a.xml"; size := 10 |} in
  let b := {| name := "b.exe"; size := 10 |} in
  let trace := [AddFiles [a; b]; Elapse 2000; UploadFile 0;
                HttpNext 0 Response; Elapse 3000] in
  exists st,
    run trace (initial "") = Some st /\
    now st + 5000 <= 8000 /\
    alertMessage (elapse 8000 st) = "" /\ alertType (elapse 8000 st) = "" /\
    timers (elapse 8000 st) = [].
Proof.
  intros a b trace. eexists.
  split; [vm_compute; reflexivity|].
  split; [vm_compute; discriminate|].
  apply (quiet_period_clears_everything "" trace).
  - vm_compute. reflexivity.
  - vm_compute. discriminate.
Defined.

(** ** removeFile outside the queue *)

(** X14. [removeFile] takes any index, as [splice] does: at or beyond the
    end of the queue it changes nothing; a negative index counts from
    the end, so that -1 removes the last record; and an index below
    minus the length removes the first record. *)
Theorem removeFile_index_edges (st : State) (index : Z) :
  let len := Z.of_nat (length (uploadedFiles st)) in
  (len <= index -> removeFile index st = st) /\
  (- len <= index < 0 ->
   uploadedFiles (removeFile index st)
     = delete (Z.to_nat (len + index)) (uploadedFiles st)) /\
  (index < - len ->
   uploadedFiles (removeFile index st) = drop 1 (uploadedFiles st)).
Proof.
  intros len. unfold removeFile, splice1. fold len. split; [|split].
  - intros Hge. destruct (Z.ltb_spec index 0) as [|_]; [lia|].
    rewrite (Z.min_r index) by lia. rewrite Z.sub_diag, Z.min_r by lia.
    rewrite Z.add_0_r. subst len. rewrite Nat2Z.id, take_drop.
    now destruct st.
  - intros [Hlo Hhi]. destruct (Z.ltb_spec index 0) as [_|]; [|lia].
    rewrite Z.max_l by lia. rewrite Z.min_l by lia. simpl.
    rewrite delete_take_drop. f_equal. f_equal. lia.
  - intros Hlt. destruct (Z.ltb_spec index 0) as [_|]; [|lia].
    rewrite Z.max_r by lia. simpl.
    destruct (uploadedFiles st) as [|x q] eqn:E; [reflexivity|].
    subst len. rewrite Z.min_l by (simpl length; lia). reflexivity.
Qed.

Example removeFile_last_by_minus_one :
  let q := [4; 7; 9]%nat in
  splice1 q (-1) = [4; 7]%nat /\ splice1 q 3 = q /\ splice1 q (-8) = [7; 9]%nat.
Proof. repeat split; reflexivity. Qed.

(** ** hasPendingFiles *)

Lemma existsb_false_filter {A} (p : A -> bool) (l : list A) :
  existsb p l = false -> List.filter p l = [].
Proof.
  induction l as [|x l IH]; simpl; [reflexivity|].
  destruct (p x); simpl; [discriminate | exact IH].
Qed.

(** X15. When [hasPendingFiles] is false, [uploadAllFiles] does nothing:
    it returns the state unchanged and posts no request. *)
Theorem uploadAllFiles_without_pending (st : State)
    (Hnone : hasPendingFiles st = false) :
  uploadAllFiles st = Ok st.
Proof.
  unfold uploadAllFiles. unfold hasPendingFiles in Hnone.
  now rewrite (existsb_false_filter _ _ Hnone).
Qed.

Lemma uploadAllFiles_without_pending_witness :
  let a := {| name := "a.xml"; size := 10 |} in
  exists st,
    run [AddFiles [a]; UploadFile 0; HttpError 0 None] (initial "") = Some st /\
    hasPendingFiles st = false /\
    uploadAllFiles st = Ok st.
Proof.
  intros a. eexists.
  split; [vm_compute; reflexivity|].
  split; [vm_compute; reflexivity|].
  apply uploadAllFiles_without_pending. vm_compute. reflexivity.
Defined.

(** X16. In a reachable state, after [uploadAllFiles] no queued record
    is pending, so [hasPendingFiles] is false and a second
    [uploadAllFiles] right after changes nothing. *)
Theorem uploadAllFiles_leaves_none_pending
    (backend : string) (trace : list Action) (st : State)
    (Hrun : run trace (initial backend) = Some st) :
  exists st',
    uploadAllFiles st = Ok st' /\
    hasPendingFiles st' = false /\
    uploadAllFiles st' = Ok st'.
Proof.
  pose proof (wf_reachable backend trace st Hrun) as Hwf.
  set (snapshot := List.filter (statusIs pending st) (uploadedFiles st)).
  destruct (uploadEach_spec snapshot st) as (st' & rqs & Hup & Hq & _ & _ & Hin & Hout).
  { apply NoDup_List_filter, (wf_nodup st Hwf). }
  { intros p Hp. apply list_elem_of_In, filter_In in Hp.
    destruct Hp as [Hp Hs]. split; [now apply list_elem_of_In | exact Hs]. }
  assert (Hnone : hasPendingFiles st' = false).
  { unfold hasPendingFiles. rewrite Hq.
    apply not_true_is_false. intros Hex. apply existsb_exists in Hex.
    destruct Hex as (r & Hr & Hs).
    destruct (decide (r ∈ snapshot)) as [Hsnap|Hsnap].
    - destruct (Hin r Hsnap) as (f & _ & Hf').
      unfold statusIs in Hs. rewrite Hf' in Hs. discriminate.
    - unfold statusIs in Hs. rewrite (Hout r Hsnap) in Hs.
      apply Hsnap. apply list_elem_of_In, filter_In. now split. }
  exists st'. split; [exact Hup|]. split; [exact Hnone|].
  unfold uploadAllFiles. unfold hasPendingFiles in Hnone.
  now rewrite (existsb_false_filter _ _ Hnone).
Qed.

Lemma uploadAllFiles_leaves_none_pending_witness :
  let a := {| name := "a.xml"; size := 10 |} in
  let b := {| name := "b.dat"; size := 20 |} in
  let trace := [AddFiles [a; b]; UploadFile 1; HttpError 0 None;
                AddFiles [a]] in
  exists st,
    run trace (initial "") = Some st /\
    hasPendingFiles st = true /\
    exists st',
      uploadAllFiles st = Ok st' /\
      hasPendingFiles st' = false /\
      uploadAllFiles st' = Ok st'.
Proof.
  intros a b trace. eexists.
  split; [vm_compute; reflexivity|].
  split; [vm_compute; reflexivity|].
  apply (uploadAllFiles_leaves_none_pending "" trace). vm_compute. reflexivity.
Defined.

(** X17. After [addFiles] with at least one acceptable candidate,
    [hasPendingFiles] is true, whatever the state was. *)
Theorem addFiles_makes_pending (files : list File) (st : State) (a : File)
    (Hin : In a files) (Hvalid : isValidFile a = true) :
  hasPendingFiles (addFiles files st) = true.
Proof.
  destruct (addFiles_shape files st) as [Hh Hq].
  assert (Hacc : In a (List.filter isValidFile files))
    by (apply filter_In; now split).
  destruct (List.filter isValidFile files) as [|a0 accepted] eqn:E;
    [inversion Hacc|].
  unfold hasPendingFiles. apply existsb_exists.
  exists (length (heap st)). split.
  - rewrite Hq. apply in_or_app. right. simpl. now left.
  - unfold statusIs. rewrite Hh.
    rewrite lookup_app_r by lia. rewrite Nat.sub_diag. reflexivity.
Qed.

Lemma addFiles_makes_pending_witness :
  let a := {| name := "a.xml"; size := 10 |} in
  let b := {| name := "b.exe"; size := 10 |} in
  In a [b; a] /\ isValidFile a = true /\
  hasPendingFiles (addFiles [b; a] (initial "")) = true.
Proof.
  intros a b.
  assert (Hin : In a [b; a]) by (right; left; reflexivity).
  assert (Hv : isValidFile a = true) by (vm_compute; reflexivity).
  split; [exact Hin|]. split; [exact Hv|].
  apply (addFiles_makes_pending [b; a] (initial "") a Hin Hv).
Defined.

(** ** The percentage *)

Lemma progressOf_positive_total (loaded total : Z) :
  0 <= loaded -> 100 * loaded < 2 ^ 52 -> 0 < total ->
  progressOf loaded (Some total) = (200 * loaded + total) / (2 * total).
Proof.
  intros Hl Hb Ht.
  assert (Hd : total_or_1 (Some total) = total).
  { unfold total_or_1. destruct (Z.eqb_spec total 0); [lia | reflexivity]. }
  rewrite progressOf_exact by (rewrite ?Hd; assumption). now rewrite Hd.
Qed.

Lemma progressOf_divisor_one (loaded : Z) (total : option Z) :
  0 <= loaded -> 100 * loaded < 2 ^ 52 ->
  total_or_1 total = 1 -> progressOf loaded total = 100 * loaded.
Proof.
  intros Hl Hb H1. rewrite progressOf_exact by (rewrite ?H1; lia).
  rewrite H1. replace (200 * loaded + 1) with (1 + (100 * loaded) * 2) by lia.
  rewrite Z.div_add by lia. reflexivity.
Qed.



(** X19. With a positive total, and 100 x loaded below 2^52 so that
    double precision is exact enough, the stored percentage is 100
    exactly when the bytes sent are within half a percent of the total,
    from 99.5 % on: progress 100 does not have to mean that all bytes
    are sent. *)
Theorem progress_full_from_995 (loaded total : Z)
    (Htotal : 0 < total)
    (Hloaded : 0 <= loaded)
    (Hexact : 100 * loaded < 2 ^ 52) :
  progressOf loaded (Some total) = 100 <->
  199 * total <= 200 * loaded < 201 * total.
Proof.
  rewrite progressOf_positive_total by assumption.
  pose proof (quotient_nearest (100 * loaded) total Htotal) as Hn.
  replace (2 * (100 * loaded)) with (200 * loaded) in Hn by lia.
  split.
  - intros H100. rewrite H100 in Hn. unfold nearest in Hn. lia.
  - intros Hrange.
    apply (nearest_unique (100 * loaded) total); [exact Htotal | exact Hn |].
    unfold nearest. lia.
Qed.

Lemma progress_full_from_995_witness :
  0 < 1000 /\ 0 <= 995 /\ 100 * 995 < 2 ^ 52 /\
  (progressOf 995 (Some 1000) = 100 <->
   199 * 1000 <= 200 * 995 < 201 * 1000).
Proof.
  assert (H : 0 < 1000) by lia.
  assert (H0 : 0 <= 995) by lia.
  assert (H1 : 100 * 995 < 2 ^ 52) by (vm_compute; reflexivity).
  split; [exact H|]. split; [exact H0|]. split; [exact H1|].
  apply (progress_full_from_995 995 1000 H H0 H1).
Defined.

(** X20. When an upload-progress event has no total, or a total of 0,
    the divisor is 1 and the stored percentage is 100 times the bytes
    sent, as long as that product is below 2^52: it is not capped at
    100. *)
Theorem progress_without_total (loaded : Z)
    (Hloaded : 0 <= loaded)
    (Hexact : 100 * loaded < 2 ^ 52) :
  progressOf loaded None = 100 * loaded /\
  progressOf loaded (Some 0) = 100 * loaded.
Proof. split; apply progressOf_divisor_one; auto. Qed.

Lemma progress_without_total_witness :
  0 <= 5 /\ 100 * 5 < 2 ^ 52 /\
  progressOf 5 None = 100 * 5 /\ progressOf 5 (Some 0) = 100 * 5.
Proof.
  assert (H0 : 0 <= 5) by lia.
  assert (H1 : 100 * 5 < 2 ^ 52) by (vm_compute; reflexivity).
  split; [exact H0|]. split; [exact H1|].
  apply (progress_without_total 5 H0 H1).
Defined.

(** Beyond 2^52 neither holds: a quotient just below 99.5 is stored as
    100, and 100 times the largest exact integer is not a double. *)
Example progressOf_beyond_exact_range :
  progressOf 79600000000198 (Some 80000000000199) = 100 /\
  200 * 79600000000198 < 199 * 80000000000199 /\
  progressOf 9007199254740991 None = 900719925474099072.
Proof.
  split; [vm_compute; reflexivity|]. split; [lia|]. vm_compute. reflexivity.
Qed.

(** ** Names *)

Lemma toLowerChar_idempotent (c : ascii) :
  toLowerChar (toLowerChar c) = toLowerChar c.
Proof.
  destruct c as [[] [] [] [] [] [] [] []]; reflexivity.
Qed.

Lemma toLowerCase_idempotent (s : string) :
  toLowerCase (toLowerCase s) = toLowerCase s.
Proof.
  induction s as [|c s IH]; simpl; [reflexivity|].
  now rewrite toLowerChar_idempotent, IH.
Qed.

Lemma toLowerCase_length (s : string) :
  String.length (toLowerCase s) = String.length s.
Proof. induction s as [|c s IH]; simpl; [reflexivity | now rewrite IH]. Qed.

Lemma endsWith_short (s ext : string) :
  (String.length s < String.length ext)%nat -> endsWith s ext = false.
Proof.
  intros Hlt. unfold endsWith.
  destruct (Nat.leb_spec (String.length ext) (String.length s)) as [|_];
    [lia | reflexivity].
Qed.

(** X21. [isValidFile] does not look at the case of the name: a file and
    the same file with its name in lower case get the same verdict; and
    a name of fewer than four characters is never accepted. *)
Theorem isValidFile_ignores_case (f : File) :
  isValidFile {| name := toLowerCase (name f); size := size f |} = isValidFile f
  /\ ((String.length (name f) < 4)%nat -> isValidFile f = false).
Proof.
  split.
  - unfold isValidFile. simpl. now rewrite toLowerCase_idempotent.
  - intros Hshort. unfold isValidFile, validExtensions. cbn [existsb].
    rewrite !endsWith_short by (rewrite toLowerCase_length; simpl; lia).
    reflexivity.
Qed.

Example isValidFile_upper_case :
  isValidFile {| name := "SCAN.NRS"; size := 5 |} = true /\
  isValidFile {| name := "xml"; size := 5 |} = false.
Proof. split; reflexivity. Qed.

(** ** Dropping files *)



(** ** Removing a record whose upload is under way *)

(** X23. [removeFile] does not cancel anything: when the record at an
    index in bounds has an open request, the request is still open after
    the removal, and its response then marks the removed record success
    with progress 100, lowers [isUploading], and announces the upload of
    a file that is no longer in the queue. *)
Theorem removed_record_still_completes
    (backend : string) (trace : list Action) (st : State)
    (index : Z) (id : nat) (rq : Request) (f : UploadedFile)
    (Hrun : run trace (initial backend) = Some st)
    (Hindex : array_get (uploadedFiles st) index = Some (target rq))
    (Hid : requests st !! id = Some rq)
    (Hlive : live rq = true)
    (Hf : heap st !! target rq = Some f) :
  exists st',
    run [RemoveFile index; HttpNext id Response] st = Some st' /\
    (target rq ∉ uploadedFiles st') /\
    heap st' !! target rq = Some {| file := file f; progress := 100;
                                    status := success; error := error f |} /\
    isUploading st' = false /\
    alertMessage st' = ("File " ++ name (file f) ++ " uploaded successfully!")%string.
Proof.
  pose proof (wf_reachable backend trace st Hrun) as Hwf.
  pose proof (wf_removeFile index st Hwf) as Hwf1.
  apply array_get_Some in Hindex. destruct Hindex as [Hin Hr].
  assert (Hgone : target rq ∉ uploadedFiles (removeFile index st)).
  { simpl. rewrite splice1_in_bounds by exact Hin.
    apply NoDup_delete_lookup; [apply (wf_nodup st Hwf) | exact Hr]. }
  destruct (exec_next_cases (removeFile index st) id rq Response Hwf1 Hid Hlive)
    as (f0 & Hf0 & _ & Heq).
  simpl in Hf0. unfold ref in *. rewrite Hf in Hf0. injection Hf0 as <-.
  eexists. split.
  - change (run [RemoveFile index; HttpNext id Response] st)
      with (match exec (HttpNext id Response) (removeFile index st) with
            | Some s => Some s
            | None => None
            end).
    rewrite Heq. reflexivity.
  - pose proof (lookup_lt_Some _ _ _ Hf) as Hlt.
    unfold retire. change (requests (removeFile index st)) with (requests st).
    rewrite Hid. simpl.
    split; [exact Hgone|]. split; [now apply list_lookup_insert_eq|].
    split; reflexivity.
Qed.

Lemma removed_record_still_completes_witness :
  let a := {| name := "a.xml"; size := 10 |} in
  let b := {| name := "b.dat"; size := 20 |} in
  let trace := [AddFiles [a; b]; UploadAllFiles] in
  exists st rq f,
    run trace (initial "") = Some st /\
    requests st !! 1%nat = Some rq /\
    live rq = true /\
    array_get (uploadedFiles st) 1 = Some (target rq) /\
    heap st !! target rq = Some f /\
    exists st',
      run [RemoveFile 1; HttpNext 1 Response] st = Some st' /\
      (target rq ∉ uploadedFiles st') /\
      heap st' !! target rq = Some {| file := file f; progress := 100;
                                      status := success; error := error f |} /\
      isUploading st' = false /\
      alertMessage st' = ("File " ++ name (file f) ++ " uploaded successfully!")%string.
Proof.
  intros a b trace. eexists _, _, _.
  split; [vm_compute; reflexivity|].
  split; [vm_compute; reflexivity|].
  split; [vm_compute; reflexivity|].
  split; [vm_compute; reflexivity|].
  split; [vm_compute; reflexivity|].
  apply (removed_record_still_completes "" trace _ 1 1%nat).
  - vm_compute. reflexivity.
  - vm_compute. reflexivity.
  - vm_compute. reflexivity.
  - vm_compute. reflexivity.
  - vm_compute. reflexivity.
Defined.
